(** * VCF analyzer: record extraction and metric calculators

    A shallow embedding of the analysis core of [asthe.py]: the record
    extractor [parse_vcf], the three calculators
    [calculate_mutation_frequencies], [ngs_quality_metrics] and
    [mutation_spectrum], and the values that the analyzer page computes
    from them, followed by the properties proved about them.

    Conventions of the embedding.
    - Python numbers are exact: [int] is [Z] and [float] is [Q], compared
      with [==].  Binary rounding of floats is modelled where the program
      rounds to decimals itself, in the ratio of [mutation_spectrum]; the
      other quotients are the exact ones.
    - A cell of a numeric DataFrame column is an [option]: [None] is the
      missing value (NaN) that [dropna] removes.
    - Code that can raise returns a [result]; the exception is carried as
      the text [str(e)] gives for it.
    - The reader [cyvcf2.VCF] is outside the program: it is a parameter, and
      the object it returns is an iterator that yields variants and may
      raise while it is being consumed.  The variants are as cyvcf2 hands
      them over: a sample of [genotypes] is a list, and the INFO object
      is gone through as pairs. *)

From Stdlib Require Import List String Ascii ZArith QArith Qround Qabs Qpower Bool Lia Lqa Arith.
From Stdlib Require Import Permutation Sorted.
Import ListNotations.

Local Open Scope string_scope.
Local Open Scope Z_scope.

(** ** Exceptions *)

Definition exn := string.

Inductive result (A : Type) : Type :=
| Ok (a : A)
| Raise (e : exn).

Arguments Ok {A} a.
Arguments Raise {A} e.

Definition bind {A B : Type} (c : result A) (k : A -> result B) : result B :=
  match c with
  | Ok a => k a
  | Raise e => Raise e
  end.

Notation "x <- c ;; k" := (bind c (fun x => k))
  (at level 61, c at next level, right associativity).

(** ** Python built-ins used by the program *)

Module Py.

(** [l[i]] on a list or tuple: [IndexError] out of range. *)
Definition index {A : Type} (what : string) (l : list A) (i : nat) : result A :=
  match nth_error l i with
  | Some a => Ok a
  | None => Raise (what ++ " index out of range")
  end.

(** The value a mapping with string keys holds for a key, if any. *)
Fixpoint lookup {A : Type} (d : list (string * A)) (k : string) : option A :=
  match d with
  | [] => None
  | (k', a) :: d' => if String.eqb k' k then Some a else lookup d' k
  end.

(** [l[k]] on a list with a string for index: a list takes integers and
    slices only, so this is a TypeError whatever the list holds. *)
Definition list_getitem_str {A B : Type} (l : list A) (k : string) : result B :=
  Raise "list indices must be integers or slices, not str".

(** [x in l] for a list of strings. *)
Definition contains (l : list string) (x : string) : bool :=
  existsb (String.eqb x) l.

(** [sep.join(l)]. *)
Definition join (sep : string) (l : list string) : string :=
  String.concat sep l.

(** [s.split(sep)] for a one-character separator: the fields between
    the separators, never an empty list. *)
Fixpoint split (sep : ascii) (s : string) : list string :=
  match s with
  | EmptyString => [EmptyString]
  | String c s' =>
      if Ascii.eqb c sep then EmptyString :: split sep s'
      else match split sep s' with
           | x :: xs => String c x :: xs
           | [] => [String c EmptyString]
           end
  end.

(** The nearest integer, ties to the even one. *)
Definition round_half_even (q : Q) : Z :=
  let f := Qfloor q in
  let r := (q - inject_Z f)%Q in
  match (r ?= 1 # 2)%Q with
  | Lt => f
  | Gt => f + 1
  | Eq => if Z.even f then f else f + 1
  end.

(** The exponent of the highest power of 2 that is at most [q], for a
    positive [q]. *)
Definition ilog2 (q : Q) : Z :=
  let l0 := Z.log2 (Qnum q) - Z.log2 (Zpos (Qden q)) in
  if Qle_bool (2 ^ l0) q then l0 else l0 - 1.

(** The binary64 float nearest to a rational, ties to the even mantissa:
    53 bits of mantissa, and the fixed quantum 2^-1074 below the normal
    range.  Overflow is left out: the floats of the program are quotients
    of two counts of rows, and a table has fewer than 2^63 rows. *)
Definition float_of_Q (q : Q) : Q :=
  if Qeq_bool q 0 then 0%Q
  else
    let e := Z.max (ilog2 (Qabs q) - 52) (-1074) in
    Qred (inject_Z (round_half_even (q * 2 ^ (- e))) * 2 ^ e)%Q.

(** [a / b] on two integers: the float nearest to the quotient. *)
Definition truediv (a b : Z) : Q := float_of_Q (inject_Z a / inject_Z b).

(** [round(x, 2)] on a float: the value of the float is rounded to the
    nearest multiple of 1/100, ties to the even one, and the result is the
    float nearest to that decimal. *)
Definition round2 (x : Q) : Q :=
  float_of_Q (inject_Z (round_half_even (x * 100)) / 100).

End Py.

(** ** The reader's data: [cyvcf2.Variant] as the program uses it *)

(** A value of the INFO mapping: cyvcf2 hands back one number, or a tuple
    of numbers for a field with several values. *)
Inductive info_value : Type :=
| Scalar (x : Q)
| Tuple (xs : list Q).

(** One sample of [variant.genotypes]: cyvcf2 gives the list of its
    alleles followed by the phasing flag, [[0, 1, True]]. *)
Inductive genotype_item : Type :=
| Allele (a : Z)
| Phased (p : bool).

Definition sample := list genotype_item.

Module Variant.
Record t : Type := mk {
  CHROM : string;
  POS : Z;
  REF : string;
  ALT : list string;
  var_type : string;
  INFO : list (string * info_value);
  FORMAT : list string;
  genotypes : list sample;
  QUAL : option Q
}.
End Variant.

(** What iterating over [VCF(path)] does: stop, yield a variant and go on,
    or raise. *)
Inductive vcf_iter : Type :=
| StopIteration
| Next (variant : Variant.t) (rest : vcf_iter)
| Raises (e : exn).

(** ** The table: one row per record *)

Record Row : Type := mkRow {
  CHROM : string;
  POS : Z;
  REF : string;
  ALT : string;
  TYPE : string;
  AF : option info_value;
  VAF : option Q;
  DP : option Z;
  Mutation : string;
  QUAL : option Q
}.

Definition DataFrame := list Row.

(** [df.empty] *)
Definition empty (df : DataFrame) : bool :=
  match df with [] => true | _ => false end.

(** ** parse_vcf *)

(** [x[0]] on an INFO value: a tuple is indexed, a float is not
    subscriptable. *)
Definition info_index0 (v : info_value) : result Q :=
  match v with
  | Tuple xs => Py.index "tuple" xs 0
  | Scalar _ => Raise "'float' object is not subscriptable"
  end.

(** [variant.INFO.get('AF', [0])] *)
Definition INFO_get_default (info : list (string * info_value)) (k : string)
    (default : info_value) : info_value :=
  match Py.lookup info k with
  | Some v => v
  | None => default
  end.

(** A pair (key, value) compared with a string: a tuple is never equal to
    a str. *)
Definition pair_equals_str (item : string * info_value) (k : string) : bool :=
  false.

(** [k in variant.INFO].  The INFO object of cyvcf2 has no [__contains__]:
    Python goes through what iterating over it yields, the pairs
    (key, value), and looks for one equal to [k]. *)
Definition INFO_contains (info : list (string * info_value)) (k : string) : bool :=
  existsb (fun item => pair_equals_str item k) info.

(** Lines 71-79: the pair (vaf, total_depth) of one variant. *)
Definition vaf_and_depth (variant : Variant.t) : result (Q * Z) :=
  if Py.contains (Variant.FORMAT variant) "AD" then
    sample <- Py.index "list" (Variant.genotypes variant) 0 ;;
    ad0 <- Py.list_getitem_str sample "AD" ;;
    ref_count <- Py.index "list" ad0 0 ;;
    ad1 <- Py.list_getitem_str sample "AD" ;;
    alt_count <- Py.index "list" ad1 1 ;;
    let total_depth := ref_count + alt_count in
    let vaf := if 0 <? total_depth
               then (inject_Z alt_count / inject_Z total_depth)%Q
               else 0%Q in
    Ok (vaf, total_depth)
  else
    if INFO_contains (Variant.INFO variant) "AF" then
      vaf <- info_index0
               (INFO_get_default (Variant.INFO variant) "AF" (Tuple [0%Q])) ;;
      Ok (vaf, 0)
    else Ok (0%Q, 0).

(** The arrow of the mutation label, U+2192 in UTF-8. *)
Definition arrow : string :=
  String (ascii_of_nat 226) (String (ascii_of_nat 134)
    (String (ascii_of_nat 146) EmptyString)).

(** Lines 70-92: the body of the loop, from a variant to its row. *)
Definition record_of (variant : Variant.t) : result Row :=
  vd <- vaf_and_depth variant ;;
  let '(vaf, total_depth) := vd in
  let alt := Py.join "," (Variant.ALT variant) in
  alt0 <- Py.index "list" (Variant.ALT variant) 0 ;;
  Ok {| CHROM := Variant.CHROM variant;
        POS := Variant.POS variant;
        REF := Variant.REF variant;
        ALT := alt;
        TYPE := Variant.var_type variant;
        AF := Py.lookup (Variant.INFO variant) "AF";
        VAF := Some vaf;
        DP := Some total_depth;
        Mutation := Variant.REF variant ++ arrow ++ alt0;
        QUAL := Variant.QUAL variant |}.

(** [for variant in vcf: ... records.append(...)] *)
Fixpoint parse_loop (vcf : vcf_iter) (records : list Row) : result (list Row) :=
  match vcf with
  | StopIteration => Ok records
  | Raises e => Raise e
  | Next variant rest =>
      r <- record_of variant ;;
      parse_loop rest (records ++ [r])
  end.

(** The body of the [try]. *)
Definition parse_vcf_try (VCF : string -> result vcf_iter) (vcf_path : string)
    : result DataFrame :=
  vcf <- VCF vcf_path ;;
  parse_loop vcf [].

(** [parse_vcf] returns the table together with what it passed to
    [st.error]. *)
Definition parse_vcf (VCF : string -> result vcf_iter) (vcf_path : string)
    : DataFrame * list string :=
  match parse_vcf_try VCF vcf_path with
  | Ok records => (records, [])
  | Raise e => ([], ["VCF parsing error: " ++ e])
  end.

(** ** calculate_mutation_frequencies *)

(** [Counter(labels)]: a mapping from label to count that keeps the labels
    in the order of their first occurrence. *)
Fixpoint counter_incr (k : string) (d : list (string * Z)) : list (string * Z) :=
  match d with
  | [] => [(k, 1)]
  | (k', c) :: d' =>
      if String.eqb k' k then (k', c + 1) :: d'
      else (k', c) :: counter_incr k d'
  end.

Definition Counter (labels : list string) : list (string * Z) :=
  fold_left (fun d k => counter_incr k d) labels [].

(** [sum(mutation_counts.values())] *)
Definition sum_values (d : list (string * Z)) : Z :=
  fold_right (fun kc acc => snd kc + acc) 0 d.

(** A row of the frequency table: the index is the mutation label, the
    columns are [Count] and [Frequency (%)]. *)
Record FreqRow : Type := mkFreq {
  label : string;
  Count : Z;
  Frequency : Q
}.

(** [sort_values('Count', ascending=False)]: rows of equal count keep
    their relative order, the label met first coming first.  The rows are
    put in from the last to the first, each in front of the first row
    whose count is not larger. *)
Fixpoint insert_desc (r : FreqRow) (l : list FreqRow) : list FreqRow :=
  match l with
  | [] => [r]
  | x :: l' =>
      if Count x <=? Count r then r :: x :: l'
      else x :: insert_desc r l'
  end.

Definition sort_values_desc (l : list FreqRow) : list FreqRow :=
  fold_right insert_desc [] l.

(** Lines 103-107: the frequency table before it is sorted. *)
Definition freq_table (df : DataFrame) : list FreqRow :=
  let mutation_counts := Counter (map Mutation df) in
  let total_mutations := sum_values mutation_counts in
  map (fun kc =>
         {| label := fst kc;
            Count := snd kc;
            Frequency := (inject_Z (snd kc) / inject_Z total_mutations * 100)%Q |})
      mutation_counts.

Definition calculate_mutation_frequencies (df : DataFrame) : list FreqRow :=
  if empty df then []
  else sort_values_desc (freq_table df).

(** ** ngs_quality_metrics *)

(** A value of the metrics mapping. *)
Inductive metric : Type :=
| NaN
| Float (x : Q)
| Int (n : Z).

(** [column.dropna()] *)
Fixpoint dropna {A : Type} (column : list (option A)) : list A :=
  match column with
  | [] => []
  | Some a :: rest => a :: dropna rest
  | None :: rest => dropna rest
  end.

Definition Zsum (l : list Z) : Z := fold_right Z.add 0 l.

(** [np.mean]: NaN on an empty array. *)
Definition np_mean (l : list Z) : metric :=
  match l with
  | [] => NaN
  | _ => Float (inject_Z (Zsum l) / inject_Z (Z.of_nat (List.length l)))%Q
  end.

Fixpoint Qinsert (x : Q) (l : list Q) : list Q :=
  match l with
  | [] => [x]
  | y :: l' => if Qle_bool x y then x :: y :: l' else y :: Qinsert x l'
  end.

Definition Qsort (l : list Q) : list Q := fold_right Qinsert [] l.

(** [np.median]: the middle of the sorted values, the mean of the two
    middle ones when their number is even, NaN on an empty array. *)
Definition np_median (l : list Q) : metric :=
  match l with
  | [] => NaN
  | _ =>
      let s := Qsort l in
      let n := List.length l in
      if Nat.even n
      then Float ((nth (n / 2 - 1) s 0 + nth (n / 2) s 0) / 2)%Q
      else Float (nth (n / 2) s 0%Q)
  end.

Definition metric_times (m : metric) (k : Q) : metric :=
  match m with
  | NaN => NaN
  | Float x => Float (x * k)%Q
  | Int n => Float (inject_Z n * k)%Q
  end.

(** [df['QUAL'] >= 30]: false on a missing value. *)
Definition qual_ge_30 (row : Row) : bool :=
  match QUAL row with
  | Some q => Qle_bool 30 q
  | None => false
  end.

Definition ngs_quality_metrics (df : DataFrame) : list (string * metric) :=
  if negb (empty df) then
    [ ("Mean Depth", np_mean (dropna (map DP df)));
      ("Median VAF", metric_times (np_median (dropna (map VAF df))) 100);
      ("Q30 Variants", Int (Z.of_nat (List.length (filter qual_ge_30 df)))) ]
  else [].

(** ** mutation_spectrum *)

Inductive ratio : Type :=
| NA
| Ratio (x : Q).

Record Spectrum : Type := mkSpectrum {
  Transitions : Z;
  Transversions : Z;
  TiTv_Ratio : ratio
}.

Definition transitions : list (string * string) :=
  [("A","G"); ("G","A"); ("C","T"); ("T","C")].

Definition transversions : list (string * string) :=
  [("A","C"); ("A","T"); ("C","A"); ("C","G");
   ("G","C"); ("G","T"); ("T","A"); ("T","G")].

(** [(ref, alt) in table] *)
Definition pair_in (p : string * string) (table : list (string * string)) : bool :=
  existsb (fun q => String.eqb (fst q) (fst p) && String.eqb (snd q) (snd p)) table.

Definition is_snp (row : Row) : bool := String.eqb (TYPE row) "snp".

(** Lines 130-134: one turn of the loop on the counters (ti, tv). *)
Definition spectrum_step (row : Row) (c : Z * Z) : result (Z * Z) :=
  let '(ti, tv) := c in
  let ref := REF row in
  alt <- Py.index "list" (Py.split "," (ALT row)) 0 ;;
  if pair_in (ref, alt) transitions then Ok (ti + 1, tv)
  else if pair_in (ref, alt) transversions then Ok (ti, tv + 1)
  else Ok (ti, tv).

Fixpoint spectrum_loop (rows : list Row) (c : Z * Z) : result (Z * Z) :=
  match rows with
  | [] => Ok c
  | row :: rest =>
      c' <- spectrum_step row c ;;
      spectrum_loop rest c'
  end.

Definition mutation_spectrum (df : DataFrame) : result Spectrum :=
  if empty df || negb (Py.contains (map TYPE df) "snp") then
    Ok {| Transitions := 0; Transversions := 0; TiTv_Ratio := NA |}
  else
    c <- spectrum_loop (filter is_snp df) (0, 0) ;;
    let '(ti, tv) := c in
    Ok {| Transitions := ti;
          Transversions := tv;
          TiTv_Ratio := if 0 <? tv
                        then Ratio (Py.round2 (Py.truediv ti tv))
                        else NA |}.

(** ** The analyzer page

    Of the page that shows the analysis (lines 231-369), the values it
    computes and the messages it passes to [st.error]; the drawing of the
    charts and widgets is left to Streamlit and Matplotlib. *)

(** [series.value_counts()]: the number of rows of every distinct value,
    the largest count first, and of two values of equal count the one met
    first. *)
Fixpoint insert_count_desc (kc : string * Z) (l : list (string * Z))
    : list (string * Z) :=
  match l with
  | [] => [kc]
  | x :: l' =>
      if snd x <=? snd kc then kc :: x :: l'
      else x :: insert_count_desc kc l'
  end.

Definition value_counts (column : list string) : list (string * Z) :=
  fold_right insert_count_desc [] (Counter column).

(** [series.get(k, default)] and [metrics.get(k, default)] *)
Definition get {A : Type} (d : list (string * A)) (k : string) (default : A) : A :=
  match Py.lookup d k with
  | Some a => a
  | None => default
  end.

(** [series.nunique()] *)
Definition nunique (column : list string) : Z :=
  Z.of_nat (List.length (nodup string_dec column)).

(** Lines 248-253: the four numbers of the basic statistics. *)
Record BasicStatistics : Type := mkStatistics {
  Total_Variants : Z;
  Chromosomes : Z;
  SNPs : Z;
  INDELs : Z
}.

Definition basic_statistics (df : DataFrame) : BasicStatistics :=
  let variant_counts := value_counts (map TYPE df) in
  {| Total_Variants := Z.of_nat (List.length df);
     Chromosomes := nunique (map CHROM df);
     SNPs := get variant_counts "snp" 0;
     INDELs := get variant_counts "indel" 0 |}.

Definition Qlt_bool (x y : Q) : bool := negb (Qle_bool y x).

(** Lines 259-268: the counts behind the pie chart, the types below 5% of
    the rows put together under the label Other.  The literal 0.05 is the
    exact 5/100. *)
Definition type_distribution (df : DataFrame) : list (string * Z) :=
  let type_counts := value_counts (map TYPE df) in
  let total := sum_values type_counts in
  if existsb (fun kc => Qlt_bool (inject_Z (snd kc) / inject_Z total * 100) 5)
             type_counts
  then
    let threshold := (inject_Z total * (5 # 100))%Q in
    let main_types :=
      filter (fun kc => Qle_bool threshold (inject_Z (snd kc))) type_counts in
    let other_count :=
      sum_values (filter (fun kc => Qlt_bool (inject_Z (snd kc)) threshold)
                         type_counts) in
    if 0 <? other_count
    then (main_types ++ [("Other", other_count)])%list
    else type_counts
  else type_counts.

(** What the page has computed when it gets to the end. *)
Record Analysis : Type := mkAnalysis {
  table : DataFrame;
  statistics : BasicStatistics;
  type_counts : list (string * Z);
  freq_df : list FreqRow;
  metrics : list (string * metric);
  spectrum : Spectrum
}.

(** How a run of the page ends: [st.stop()] after the message that there
    is no variant, the analysis shown, or an exception that nothing
    catches. *)
Inductive page_outcome : Type :=
| Stopped
| Shown (analysis : Analysis)
| Uncaught (e : exn).

(** Lines 238-366.  The result is the list of the messages passed to
    [st.error], in order, and the outcome. *)
Definition analyzer_page (VCF : string -> result vcf_iter) (tmp_path : string)
    : list string * page_outcome :=
  let '(df, errors) := parse_vcf VCF tmp_path in
  if empty df then
    ((errors ++ ["No variants detected!"])%list, Stopped)
  else
    let stats := basic_statistics df in
    let types := type_distribution df in
    let freq_df := calculate_mutation_frequencies df in
    let metrics := ngs_quality_metrics df in
    match mutation_spectrum df with
    | Raise e => (errors, Uncaught e)
    | Ok spectrum =>
        (errors,
         Shown {| table := df;
                  statistics := stats;
                  type_counts := types;
                  freq_df := freq_df;
                  metrics := metrics;
                  spectrum := spectrum |})
    end.

(** ** Vocabulary of the statements *)

(** The variant entries of a file, in file order: what the reader yields. *)
Fixpoint entries (vcf : vcf_iter) : list Variant.t :=
  match vcf with
  | Next variant rest => variant :: entries rest
  | StopIteration | Raises _ => []
  end.

(** The reader gets to the end of the file without raising. *)
Fixpoint reads_to_end (vcf : vcf_iter) : bool :=
  match vcf with
  | StopIteration => true
  | Next _ rest => reads_to_end rest
  | Raises _ => false
  end.

(** The first exception met while the file is consumed, from the reader
    or from the extraction of an entry. *)
Fixpoint first_failure (vcf : vcf_iter) : option exn :=
  match vcf with
  | StopIteration => None
  | Raises e => Some e
  | Next variant rest =>
      match record_of variant with
      | Raise e => Some e
      | Ok _ => first_failure rest
      end
  end.

Definition failure (VCF : string -> result vcf_iter) (vcf_path : string)
    : option exn :=
  match VCF vcf_path with
  | Raise e => Some e
  | Ok vcf => first_failure vcf
  end.

Definition Qsum (l : list Q) : Q := fold_right Qplus 0%Q l.

(** The count a [Counter] holds for a label: 0 for a label it does not
    have. *)
Definition count_in (d : list (string * Z)) (k : string) : Z :=
  match Py.lookup d k with
  | Some c => c
  | None => 0
  end.

(** The sum of the depths of the rows that have one. *)
Definition depth_total (df : DataFrame) : Z :=
  fold_right (fun row acc => match DP row with Some d => d + acc | None => acc end)
             0 df.

(** The first alternate allele of a row: what comes before the first comma
    of its ALT column. *)
Definition first_alt (row : Row) : string :=
  hd EmptyString (Py.split "," (ALT row)).

Definition is_transition (row : Row) : Prop :=
  TYPE row = "snp" /\ In (REF row, first_alt row) transitions.

Definition is_transversion (row : Row) : Prop :=
  TYPE row = "snp" /\ In (REF row, first_alt row) transversions.

Definition is_transition_b (row : Row) : bool :=
  is_snp row && pair_in (REF row, first_alt row) transitions.

Definition is_transversion_b (row : Row) : bool :=
  is_snp row && pair_in (REF row, first_alt row) transversions.

(** A float is another one rounded to two decimal places: it is the float
    nearest to a multiple of 1/100 that is at most half of 1/100 away from
    the other. *)
Definition rounded_to_2_places (x q : Q) : Prop :=
  exists k : Z,
    x = Py.float_of_Q (inject_Z k / 100) /\
    (Qabs (inject_Z k / 100 - q) <= 1 # 200)%Q.

(** The number of elements of a list that have a property. *)
Inductive Count_of {A : Type} (P : A -> Prop) : list A -> Z -> Prop :=
| Count_nil : Count_of P [] 0
| Count_hit a l n : P a -> Count_of P l n -> Count_of P (a :: l) (n + 1)
| Count_miss a l n : ~ P a -> Count_of P l n -> Count_of P (a :: l) n.

(** A string holds no comma. *)
Fixpoint comma_free (s : string) : bool :=
  match s with
  | EmptyString => true
  | String c s' => negb (Ascii.eqb c ",") && comma_free s'
  end.

(** ** Sample data *)

Module Sample.

(** An entry of a file with the formats GT:AD. *)
Definition with_AD : Variant.t :=
  Variant.mk "1" 100 "A" ["G"; "T"] "snp" [("AF", Tuple [(1 # 4)%Q])]
             ["GT"; "AD"] [[Allele 0; Allele 1; Phased false]] (Some 40%Q).

(** An entry without allele depths, with a reported allele frequency. *)
Definition with_AF (af : Q) : Variant.t :=
  Variant.mk "1" 200 "C" ["T"] "snp" [("AF", Tuple [af])] ["GT"]
             [[Allele 0; Allele 1; Phased false]] None.

(** An entry with the format GT only and no allele frequency. *)
Definition plain (alt : list string) (qual : option Q) : Variant.t :=
  Variant.mk "2" 50 "G" alt "snp" [] ["GT"]
             [[Allele 1; Allele 1; Phased true]] qual.

(** A monomorphic entry: no alternate allele. *)
Definition no_ALT : Variant.t :=
  Variant.mk "1" 300 "G" [] "other" [] ["GT"]
             [[Allele 0; Allele 0; Phased false]] None.

Fixpoint iter_of (l : list Variant.t) (last : vcf_iter) : vcf_iter :=
  match l with
  | [] => last
  | v :: l' => Next v (iter_of l' last)
  end.

(** A reader that opens every path on the given entries. *)
Definition VCF (l : list Variant.t) (last : vcf_iter) : string -> result vcf_iter :=
  fun _ => Ok (iter_of l last).

(** A row of the table, as [parse_vcf] would build it for one alternate
    allele. *)
Definition row (ref alt type : string) (depth : option Z) (qual : option Q) : Row :=
  mkRow "1" 1 ref alt type None (Some 0%Q) depth (ref ++ arrow ++ alt) qual.

Definition snp (ref alt : string) : Row := row ref alt "snp" (Some 0) None.

(** Twenty rows of type snp and one of type indel. *)
Definition mostly_snp : DataFrame :=
  (repeat (snp "A" "G") 20 ++ [row "AT" "A" "indel" (Some 0) None])%list.

(** A row with the given VAF cell. *)
Definition with_VAF (vaf : option Q) : Row :=
  mkRow "1" 1 "A" "G" "snp" None vaf (Some 0) ("A" ++ arrow ++ "G") None.

(** Four records with the depths 10, 20, missing and 30. *)
Definition depths : DataFrame :=
  [ row "A" "G" "snp" (Some 10) (Some 50%Q);
    row "A" "G" "snp" (Some 20) (Some 30%Q);
    row "C" "T" "snp" None None;
    row "A" "C" "snp" (Some 30) (Some (299 # 10)%Q) ].

End Sample.

(** * Properties *)

(** ** The extraction loop *)

Lemma bind_Ok {A B : Type} (c : result A) (k : A -> result B) (b : B) :
  bind c k = Ok b -> exists a, c = Ok a /\ k a = Ok b.
Proof.
  destruct c as [a|e]; simpl; intros H; [exists a; auto | discriminate].
Qed.

Lemma index_Ok {A : Type} (what : string) (l : list A) (i : nat) (a : A) :
  Py.index what l i = Ok a -> nth_error l i = Some a.
Proof.
  unfold Py.index. destruct (nth_error l i); [congruence|discriminate].
Qed.

Lemma parse_loop_spec (vcf : vcf_iter) :
  forall records,
    match first_failure vcf with
    | Some e => parse_loop vcf records = Raise e
    | None =>
        exists rows,
          parse_loop vcf records = Ok (records ++ rows)%list /\
          Forall2 (fun v r => record_of v = Ok r) (entries vcf) rows
    end.
Proof.
  induction vcf as [|variant rest IH|e]; intros records; simpl.
  - exists []. rewrite app_nil_r. split; [reflexivity|constructor].
  - destruct (record_of variant) as [r|e] eqn:Hr; simpl; [|reflexivity].
    specialize (IH (records ++ [r])%list).
    destruct (first_failure rest) as [e|]; [exact IH|].
    destruct IH as (rows & Hloop & Hall).
    exists (r :: rows). split.
    + rewrite Hloop, <- app_assoc. reflexivity.
    + constructor; assumption.
  - reflexivity.
Qed.

Lemma parse_vcf_spec (VCF : string -> result vcf_iter) (vcf_path : string) :
  match failure VCF vcf_path with
  | Some e => parse_vcf VCF vcf_path = ([], ["VCF parsing error: " ++ e])
  | None =>
      exists vcf,
        VCF vcf_path = Ok vcf /\
        snd (parse_vcf VCF vcf_path) = [] /\
        Forall2 (fun v r => record_of v = Ok r)
                (entries vcf) (fst (parse_vcf VCF vcf_path))
  end.
Proof.
  unfold failure, parse_vcf, parse_vcf_try.
  destruct (VCF vcf_path) as [vcf|e]; simpl; [|reflexivity].
  pose proof (parse_loop_spec vcf []) as H.
  destruct (first_failure vcf) as [e|].
  - rewrite H. reflexivity.
  - destruct H as (rows & Hloop & Hall). simpl in Hloop.
    exists vcf. rewrite Hloop. simpl. auto.
Qed.

Lemma Forall2_nth_error_l {A B : Type} (R : A -> B -> Prop) (l : list A) (l' : list B) :
  Forall2 R l l' ->
  forall i a, nth_error l i = Some a -> exists b, nth_error l' i = Some b /\ R a b.
Proof.
  induction 1 as [|x y l l' Hxy _ IH]; intros i a Hi.
  - destruct i; discriminate.
  - destruct i as [|i]; simpl in *.
    + injection Hi as <-. exists y. auto.
    + apply IH. exact Hi.
Qed.

Lemma Forall2_nth_error_both {A B : Type} (R : A -> B -> Prop) (l : list A) (l' : list B) :
  Forall2 R l l' ->
  forall i a b, nth_error l i = Some a -> nth_error l' i = Some b -> R a b.
Proof.
  intros H i a b Ha Hb.
  destruct (Forall2_nth_error_l R l l' H i a Ha) as (b' & Hb' & Hab).
  congruence.
Qed.

(** A successful extraction puts in the row the pair that lines 71-79
    have computed and the fields of the entry. *)
Lemma record_of_fields (variant : Variant.t) (row : Row) :
  record_of variant = Ok row ->
  exists vaf total_depth alt0,
    vaf_and_depth variant = Ok (vaf, total_depth) /\
    nth_error (Variant.ALT variant) 0 = Some alt0 /\
    row = {| CHROM := Variant.CHROM variant;
             POS := Variant.POS variant;
             REF := Variant.REF variant;
             ALT := Py.join "," (Variant.ALT variant);
             TYPE := Variant.var_type variant;
             AF := Py.lookup (Variant.INFO variant) "AF";
             VAF := Some vaf;
             DP := Some total_depth;
             Mutation := Variant.REF variant ++ arrow ++ alt0;
             QUAL := Variant.QUAL variant |}.
Proof.
  unfold record_of. intros H.
  apply bind_Ok in H. destruct H as ([vaf total_depth] & Hvd & H).
  apply bind_Ok in H. destruct H as (alt0 & Halt & H).
  exists vaf, total_depth, alt0. repeat split.
  - exact Hvd.
  - unfold Py.index in Halt.
    destruct (nth_error (Variant.ALT variant) 0); [congruence|discriminate].
  - congruence.
Qed.

Lemma INFO_contains_false (info : list (string * info_value)) (k : string) :
  INFO_contains info k = false.
Proof.
  unfold INFO_contains. induction info as [|item info IH]; [reflexivity|exact IH].
Qed.

(** The two branches of lines 73-79 as they run: with AD among the formats
    the look-up of ['AD'] in the sample raises, or the sample is missing;
    without it the test on INFO fails and the pair is (0, 0). *)
Lemma vaf_and_depth_cases (variant : Variant.t) :
  if Py.contains (Variant.FORMAT variant) "AD"
  then exists e, vaf_and_depth variant = Raise e
  else vaf_and_depth variant = Ok (0%Q, 0).
Proof.
  unfold vaf_and_depth.
  destruct (Py.contains (Variant.FORMAT variant) "AD").
  - unfold Py.index.
    destruct (nth_error (Variant.genotypes variant) 0) as [sample|];
      cbn [bind Py.list_getitem_str]; eexists; reflexivity.
  - rewrite INFO_contains_false. reflexivity.
Qed.

Lemma vaf_and_depth_Ok (variant : Variant.t) (vaf : Q) (total_depth : Z) :
  vaf_and_depth variant = Ok (vaf, total_depth) ->
  Py.contains (Variant.FORMAT variant) "AD" = false /\
  vaf = 0%Q /\ total_depth = 0.
Proof.
  intros H. pose proof (vaf_and_depth_cases variant) as Hc.
  destruct (Py.contains (Variant.FORMAT variant) "AD").
  - destruct Hc as (e & He). congruence.
  - rewrite Hc in H. injection H as <- <-. auto.
Qed.

(** Every row of the table comes from the entry at the same place in the
    file. *)
Lemma parse_vcf_row_origin (VCF : string -> result vcf_iter) (vcf_path : string)
    (i : nat) (row : Row) :
  nth_error (fst (parse_vcf VCF vcf_path)) i = Some row ->
  exists vcf variant,
    VCF vcf_path = Ok vcf /\
    nth_error (entries vcf) i = Some variant /\
    record_of variant = Ok row.
Proof.
  intros Hrow.
  pose proof (parse_vcf_spec VCF vcf_path) as H.
  destruct (failure VCF vcf_path) as [e|].
  - rewrite H in Hrow. destruct i; discriminate.
  - destruct H as (vcf & Hopen & _ & Hall).
    exists vcf.
    destruct (nth_error (entries vcf) i) as [variant|] eqn:Hv.
    + exists variant. split; [exact Hopen|]. split; [reflexivity|].
      exact (Forall2_nth_error_both _ _ _ Hall i variant row Hv Hrow).
    + apply Forall2_length in Hall.
      apply nth_error_None in Hv.
      assert (nth_error (fst (parse_vcf VCF vcf_path)) i = None) as Hn
        by (apply nth_error_None; lia).
      congruence.
Qed.

(** What a successful extraction leaves in the row: the entry has no AD
    among its formats, and depth and VAF are 0. *)
Lemma record_of_Ok (variant : Variant.t) (row : Row) :
  record_of variant = Ok row ->
  Py.contains (Variant.FORMAT variant) "AD" = false /\
  Variant.ALT variant <> [] /\
  VAF row = Some 0%Q /\
  DP row = Some 0 /\
  AF row = Py.lookup (Variant.INFO variant) "AF" /\
  QUAL row = Variant.QUAL variant.
Proof.
  intros H.
  destruct (record_of_fields _ _ H) as (vaf & d & alt0 & Hvd & Halt & ->).
  destruct (vaf_and_depth_Ok _ _ _ Hvd) as (HAD & -> & ->).
  split; [exact HAD|]. split; [|repeat split].
  intros Hnil. rewrite Hnil in Halt. discriminate.
Qed.

Lemma record_of_raises_on_AD (variant : Variant.t) :
  Py.contains (Variant.FORMAT variant) "AD" = true ->
  exists e, record_of variant = Raise e.
Proof.
  intros HAD. pose proof (vaf_and_depth_cases variant) as Hc.
  rewrite HAD in Hc. destruct Hc as (e & He).
  exists e. unfold record_of. rewrite He. reflexivity.
Qed.

Lemma record_of_raises_without_ALT (variant : Variant.t) :
  Variant.ALT variant = [] ->
  exists e, record_of variant = Raise e.
Proof.
  intros Halt. unfold record_of.
  destruct (vaf_and_depth variant) as [[vaf d]|e]; cbn [bind].
  - rewrite Halt. eexists. reflexivity.
  - eexists. reflexivity.
Qed.

Lemma record_of_plain (variant : Variant.t) :
  Py.contains (Variant.FORMAT variant) "AD" = false ->
  Variant.ALT variant <> [] ->
  exists row, record_of variant = Ok row.
Proof.
  intros HAD Halt. pose proof (vaf_and_depth_cases variant) as Hc.
  rewrite HAD in Hc. unfold record_of. rewrite Hc. cbn [bind].
  destruct (Variant.ALT variant) as [|alt0 rest]; [contradiction|].
  eexists. reflexivity.
Qed.

(** An entry whose extraction raises leaves no row of the file: the table
    is empty and one message is reported. *)
Lemma entry_failure_empties_table
    (VCF : string -> result vcf_iter) (vcf_path : string) (vcf : vcf_iter)
    (variant : Variant.t) :
  VCF vcf_path = Ok vcf ->
  In variant (entries vcf) ->
  (exists e, record_of variant = Raise e) ->
  exists e, parse_vcf VCF vcf_path = ([], ["VCF parsing error: " ++ e]).
Proof.
  intros Hopen Hin (e0 & Hraise).
  pose proof (parse_vcf_spec VCF vcf_path) as H.
  unfold failure in H. rewrite Hopen in H.
  assert (first_failure vcf <> None) as Hf.
  { clear - Hin Hraise.
    induction vcf as [|v rest IH|e]; cbn [entries first_failure] in *;
      [contradiction| |discriminate].
    destruct Hin as [->|Hin].
    - rewrite Hraise. discriminate.
    - destruct (record_of v); [exact (IH Hin)|discriminate]. }
  destruct (first_failure vcf) as [e|]; [|contradiction].
  exists e. exact H.
Qed.

(** C1, at the failing inputs.  An entry without AD whose INFO reports the
    allele frequency 1/4 gives a record with that frequency in its AF
    column and the VAF 0: the test ['AF' in variant.INFO] fails on the
    INFO object, so the fallback is never taken.  A file with the formats
    GT:AD gives no record: [sample['AD']] raises on the list that
    [variant.genotypes[0]] is, and the whole file is given up. *)
Theorem parse_vcf_vaf_at_failing_inputs :
  parse_vcf (Sample.VCF [Sample.with_AF (1 # 4)] StopIteration) "calls.vcf"
  = ([ mkRow "1" 200 "C" "T" "snp" (Some (Tuple [(1 # 4)%Q]))
             (Some 0%Q) (Some 0) ("C" ++ arrow ++ "T") None ],
     []) /\
  parse_vcf (Sample.VCF [Sample.with_AD] StopIteration) "calls.vcf"
  = ([], ["VCF parsing error: list indices must be integers or slices, not str"]).
Proof. split; reflexivity. Qed.


(** C2. Whatever exception is met while the file is consumed - at the
    opening, from the reader in the middle of the file, or from the
    extraction of an entry - [parse_vcf] returns the empty table, however
    many rows it had built by then, and passes the message to [st.error].
    When no exception is met, nothing is reported and the table holds the
    row of every entry, none skipped. *)
Theorem parse_vcf_whole_file_failure
    (VCF : string -> result vcf_iter) (vcf_path : string) :
  match failure VCF vcf_path with
  | Some e =>
      parse_vcf VCF vcf_path = ([], ["VCF parsing error: " ++ e])
  | None =>
      exists vcf,
        VCF vcf_path = Ok vcf /\
        reads_to_end vcf = true /\
        snd (parse_vcf VCF vcf_path) = [] /\
        List.length (fst (parse_vcf VCF vcf_path)) = List.length (entries vcf) /\
        Forall2 (fun variant row => record_of variant = Ok row)
                (entries vcf) (fst (parse_vcf VCF vcf_path))
  end.
Proof.
  pose proof (parse_vcf_spec VCF vcf_path) as H.
  destruct (failure VCF vcf_path) as [e|] eqn:Hf; [exact H|].
  destruct H as (vcf & Hopen & Hmsg & Hall).
  exists vcf. split; [exact Hopen|]. split.
  - unfold failure in Hf. rewrite Hopen in Hf. clear - Hf.
    induction vcf as [|variant rest IH|e]; simpl in *; auto; [|discriminate].
    destruct (record_of variant); [auto|discriminate].
  - split; [exact Hmsg|]. split; [|exact Hall].
    symmetry. exact (Forall2_length Hall).
Qed.

(** Rows built before a failure are dropped with the rest. *)
Example parse_vcf_no_partial_table :
  parse_vcf (Sample.VCF [Sample.with_AF (1 # 4); Sample.with_AF (1 # 8)]
                        (Raises "truncated file"))
            "calls.vcf"
  = ([], ["VCF parsing error: truncated file"]) /\
  parse_vcf (Sample.VCF [Sample.with_AF (1 # 4); Sample.no_ALT; Sample.with_AF (1 # 8)]
                        StopIteration)
            "calls.vcf"
  = ([], ["VCF parsing error: list index out of range"]) /\
  parse_vcf (fun _ => Raise "no such file") "calls.vcf"
  = ([], ["VCF parsing error: no such file"]).
Proof. repeat split. Qed.

(** C9, at the failing inputs.  A file that the reader reads to its end
    without raising, and that has an entry without alternate allele or an
    entry with AD among its formats, gives the empty table and one
    message, not one record per entry: the table has fewer rows than the
    file has entries. *)
Theorem parse_vcf_drops_every_entry
    (VCF : string -> result vcf_iter) (vcf_path : string) (vcf : vcf_iter)
    (variant : Variant.t) :
  VCF vcf_path = Ok vcf ->
  reads_to_end vcf = true ->
  In variant (entries vcf) ->
  Variant.ALT variant = [] \/ Py.contains (Variant.FORMAT variant) "AD" = true ->
  (exists e, parse_vcf VCF vcf_path = ([], ["VCF parsing error: " ++ e])) /\
  (List.length (fst (parse_vcf VCF vcf_path)) < List.length (entries vcf))%nat.
Proof.
  intros Hopen _ Hin Hcase.
  assert (exists e, record_of variant = Raise e) as Hraise
    by (destruct Hcase as [Halt|HAD];
        [exact (record_of_raises_without_ALT _ Halt)
        |exact (record_of_raises_on_AD _ HAD)]).
  destruct (entry_failure_empties_table _ _ _ _ Hopen Hin Hraise) as (e & He).
  split; [exists e; exact He|].
  rewrite He. cbn [fst List.length].
  destruct (entries vcf); [contradiction|cbn [List.length]; lia].
Qed.

Lemma parse_vcf_drops_every_entry_witness :
  (List.length
     (fst (parse_vcf (Sample.VCF [Sample.plain ["A"] (Some 50%Q); Sample.no_ALT]
                                 StopIteration) "calls.vcf"))
   < 2)%nat.
Proof.
  exact (proj2
    (parse_vcf_drops_every_entry
       (Sample.VCF [Sample.plain ["A"] (Some 50%Q); Sample.no_ALT] StopIteration)
       "calls.vcf" _ Sample.no_ALT eq_refl eq_refl
       (or_intror (or_introl eq_refl)) (or_introl eq_refl))).
Defined.




(** ** Counting *)

Lemma Count_of_filter {A : Type} (P : A -> Prop) (f : A -> bool) (l : list A) :
  (forall a, f a = true <-> P a) ->
  Count_of P l (Z.of_nat (List.length (filter f l))).
Proof.
  intros Hf. induction l as [|a l IH]; cbn [filter].
  - constructor.
  - destruct (f a) eqn:Ha; cbn [List.length].
    + rewrite Nat2Z.inj_succ. unfold Z.succ.
      constructor; [apply Hf; exact Ha|exact IH].
    + apply Count_miss; [|exact IH].
      intros HP. apply Hf in HP. congruence.
Qed.

Lemma Count_of_unique {A : Type} (P : A -> Prop) (l : list A) (n m : Z) :
  Count_of P l n -> Count_of P l m -> n = m.
Proof.
  intros Hn. revert m.
  induction Hn as [|a l n Ha _ IH|a l n Ha _ IH]; intros m Hm;
    inversion Hm; subst; try contradiction; auto.
  f_equal. auto.
Qed.

Lemma Count_of_bounds {A : Type} (P : A -> Prop) (l : list A) (n : Z) :
  Count_of P l n -> 0 <= n <= Z.of_nat (List.length l).
Proof.
  induction 1; simpl List.length; try rewrite Nat2Z.inj_succ; lia.
Qed.

(** ** The mutation counter *)

Lemma count_in_incr (k k' : string) (d : list (string * Z)) :
  count_in (counter_incr k d) k' =
  count_in d k' + (if String.eqb k k' then 1 else 0).
Proof.
  unfold count_in.
  induction d as [|[k0 c] d IH]; simpl.
  - destruct (String.eqb_spec k k'); reflexivity.
  - destruct (String.eqb_spec k0 k) as [->|Hk0]; simpl.
    + destruct (String.eqb_spec k k'); [reflexivity|lia].
    + destruct (String.eqb_spec k0 k') as [->|Hk0'].
      * destruct (String.eqb_spec k k'); [congruence|lia].
      * exact IH.
Qed.

Lemma count_in_Counter_from (labels : list string) (k : string) :
  forall d,
    count_in (fold_left (fun d k => counter_incr k d) labels d) k =
    count_in d k + Z.of_nat (count_occ string_dec labels k).
Proof.
  induction labels as [|l labels IH]; intros d; simpl.
  - lia.
  - rewrite IH, count_in_incr.
    destruct (string_dec l k) as [->|Hne].
    + rewrite String.eqb_refl, Nat2Z.inj_succ. lia.
    + destruct (String.eqb_spec l k); [contradiction|lia].
Qed.

Lemma sum_values_incr (k : string) (d : list (string * Z)) :
  sum_values (counter_incr k d) = sum_values d + 1.
Proof.
  induction d as [|[k0 c] d IH]; simpl; [reflexivity|].
  destruct (String.eqb k0 k); simpl; lia.
Qed.

Lemma keys_incr (k k' : string) (d : list (string * Z)) :
  In k' (map fst (counter_incr k d)) <-> k' = k \/ In k' (map fst d).
Proof.
  induction d as [|[k0 c] d IH]; simpl.
  - intuition auto.
  - destruct (String.eqb_spec k0 k) as [->|Hne]; simpl; intuition auto.
Qed.

(** The invariant of a counter: no label twice, no count below 1. *)
Lemma counter_incr_ok (k : string) (d : list (string * Z)) :
  NoDup (map fst d) /\ Forall (fun kc => 1 <= snd kc) d ->
  NoDup (map fst (counter_incr k d)) /\
  Forall (fun kc => 1 <= snd kc) (counter_incr k d).
Proof.
  induction d as [|[k0 c] d IH]; simpl; intros (Hnd & Hpos).
  - split; repeat constructor; [intros []|simpl; lia].
  - inversion Hnd as [|? ? Hnotin Hnd']; subst.
    inversion Hpos as [|? ? Hc Hpos']; subst. simpl in Hc.
    destruct (String.eqb_spec k0 k) as [->|Hne]; simpl.
    + split; constructor; auto. simpl. lia.
    + destruct (IH (conj Hnd' Hpos')) as (IHnd & IHpos).
      split; constructor; auto.
      intros Hin. apply keys_incr in Hin. destruct Hin; [congruence|contradiction].
Qed.

Lemma Counter_from_ok (labels : list string) :
  forall d,
    NoDup (map fst d) /\ Forall (fun kc => 1 <= snd kc) d ->
    let d' := fold_left (fun d k => counter_incr k d) labels d in
    NoDup (map fst d') /\ Forall (fun kc => 1 <= snd kc) d' /\
    sum_values d' = sum_values d + Z.of_nat (List.length labels) /\
    (forall k, In k labels -> In k (map fst d')).
Proof.
  induction labels as [|l labels IH]; intros d Hok; simpl.
  - destruct Hok. repeat split; auto; [lia|intros k []].
  - destruct (IH (counter_incr l d) (counter_incr_ok l d Hok))
      as (Hnd & Hpos & Hsum & Hkeys).
    split; [exact Hnd|]. split; [exact Hpos|]. split.
    + rewrite Hsum, sum_values_incr. lia.
    + intros k [<-|Hin]; [|auto].
      clear - l. generalize (counter_incr l d) (keys_incr l l d).
      intros d0 H0.
      assert (In l (map fst d0)) as Hin by (apply H0; auto). clear H0.
      revert d0 Hin. induction labels as [|l' labels IH]; intros d0 Hin; simpl; auto.
      apply IH. apply keys_incr. auto.
Qed.

Lemma lookup_In (d : list (string * Z)) (k : string) (c : Z) :
  NoDup (map fst d) -> In (k, c) d -> Py.lookup d k = Some c.
Proof.
  induction d as [|[k0 c0] d IH]; simpl; intros Hnd Hin; [contradiction|].
  inversion Hnd as [|? ? Hnotin Hnd']; subst.
  destruct Hin as [Heq|Hin].
  - injection Heq as -> ->. rewrite String.eqb_refl. reflexivity.
  - destruct (String.eqb_spec k0 k) as [->|Hne]; [|auto].
    exfalso. apply Hnotin. apply (in_map fst) in Hin. exact Hin.
Qed.

Lemma Counter_spec (labels : list string) :
  NoDup (map fst (Counter labels)) /\
  sum_values (Counter labels) = Z.of_nat (List.length labels) /\
  (forall k, In k labels -> In k (map fst (Counter labels))) /\
  (forall k c, In (k, c) (Counter labels) ->
               1 <= c /\ c = Z.of_nat (count_occ string_dec labels k)).
Proof.
  unfold Counter.
  destruct (Counter_from_ok labels [] (conj (NoDup_nil _) (Forall_nil _)))
    as (Hnd & Hpos & Hsum & Hkeys).
  split; [exact Hnd|]. split; [exact Hsum|]. split; [exact Hkeys|].
  intros k c Hin. split.
  - rewrite Forall_forall in Hpos. exact (Hpos (k, c) Hin).
  - pose proof (count_in_Counter_from labels k []) as Hc.
    unfold count_in at 1 in Hc. rewrite (lookup_In _ _ _ Hnd Hin) in Hc.
    exact Hc.
Qed.

(** ** The frequency table *)

Lemma insert_desc_perm (r : FreqRow) (l : list FreqRow) :
  Permutation (r :: l) (insert_desc r l).
Proof.
  induction l as [|x l IH]; simpl; [reflexivity|].
  destruct (Count x <=? Count r); [reflexivity|].
  rewrite perm_swap. constructor. exact IH.
Qed.

Lemma sort_values_desc_perm (l : list FreqRow) :
  Permutation l (sort_values_desc l).
Proof.
  induction l as [|r l IH]; simpl; [constructor|].
  rewrite <- insert_desc_perm. constructor. exact IH.
Qed.

Lemma Zsum_perm (l l' : list Z) : Permutation l l' -> Zsum l = Zsum l'.
Proof.
  induction 1; simpl; lia.
Qed.

Lemma Qsum_perm (l l' : list Q) : Permutation l l' -> (Qsum l == Qsum l')%Q.
Proof.
  induction 1 as [|x l l' _ IH|x y l|l l' l'' _ IH1 _ IH2]; simpl.
  - reflexivity.
  - rewrite IH. reflexivity.
  - ring.
  - rewrite IH1. exact IH2.
Qed.

Lemma freq_table_labels (df : DataFrame) :
  map label (freq_table df) = map fst (Counter (map Mutation df)).
Proof.
  unfold freq_table. rewrite map_map. reflexivity.
Qed.

Lemma freq_table_counts (df : DataFrame) :
  Zsum (map Count (freq_table df)) = sum_values (Counter (map Mutation df)).
Proof.
  unfold freq_table. rewrite map_map. simpl.
  induction (Counter (map Mutation df)) as [|kc d IH]; simpl; [reflexivity|].
  rewrite IH. reflexivity.
Qed.

Lemma freq_table_In (df : DataFrame) (r : FreqRow) :
  In r (freq_table df) ->
  In (label r, Count r) (Counter (map Mutation df)) /\
  Frequency r =
    (inject_Z (Count r) / inject_Z (sum_values (Counter (map Mutation df))) * 100)%Q.
Proof.
  unfold freq_table. intros Hin. apply in_map_iff in Hin.
  destruct Hin as ([k c] & <- & Hin). simpl. auto.
Qed.

Lemma freq_table_percentages (d : list (string * Z)) (total : Z) :
  (Qsum (map (fun kc => inject_Z (snd kc) / inject_Z total * 100) d)
   == inject_Z (sum_values d) / inject_Z total * 100)%Q.
Proof.
  induction d as [|[k c] d IH]; simpl.
  - unfold Qdiv. ring.
  - rewrite IH, inject_Z_plus. unfold Qdiv. ring.
Qed.

Lemma count_occ_Count_of (df : DataFrame) (k : string) :
  Count_of (fun row => Mutation row = k) df
           (Z.of_nat (count_occ string_dec (map Mutation df) k)).
Proof.
  induction df as [|row df IH]; cbn [map count_occ].
  - constructor.
  - destruct (string_dec (Mutation row) k) as [Heq|Hne].
    + rewrite Nat2Z.inj_succ. unfold Z.succ. constructor; assumption.
    + apply Count_miss; assumption.
Qed.

(** The returned mapping is the frequency table up to the order of its
    rows, and the total it divides by is the number of rows of the input. *)
Lemma mutation_counts_partition_rows_aux (df : DataFrame) :
  Zsum (map Count (calculate_mutation_frequencies df)) = Z.of_nat (List.length df) /\
  Permutation (if empty df then [] else freq_table df)
              (calculate_mutation_frequencies df) /\
  sum_values (Counter (map Mutation df)) = Z.of_nat (List.length df).
Proof.
  destruct (Counter_spec (map Mutation df)) as (_ & Hsum & _).
  rewrite length_map in Hsum.
  unfold calculate_mutation_frequencies.
  destruct df as [|row0 df0]; cbn [empty].
  - repeat split; constructor.
  - pose proof (sort_values_desc_perm (freq_table (row0 :: df0))) as Hperm.
    split; [|split; [exact Hperm|exact Hsum]].
    rewrite <- (Zsum_perm _ _ (Permutation_map Count Hperm)).
    rewrite freq_table_counts. exact Hsum.
Qed.

(** C10. The counts of the returned mapping add up to the number of rows
    of the table.  No label occurs twice in the mapping, the label of
    every row occurs in it, and the count of a label is the number of rows
    that carry this label, which is at least 1. *)
Theorem mutation_counts_partition_rows (df : DataFrame) :
  Zsum (map Count (calculate_mutation_frequencies df)) = Z.of_nat (List.length df) /\
  NoDup (map label (calculate_mutation_frequencies df)) /\
  (forall row, In row df ->
               In (Mutation row) (map label (calculate_mutation_frequencies df))) /\
  (forall r, In r (calculate_mutation_frequencies df) ->
             1 <= Count r /\
             Count_of (fun row => Mutation row = label r) df (Count r)).
Proof.
  unfold calculate_mutation_frequencies.
  destruct df as [|row0 df0]; cbn [empty].
  - split; [reflexivity|]. split; [constructor|]. split; intros ? [].
  - set (df := row0 :: df0).
    pose proof (sort_values_desc_perm (freq_table df)) as Hperm.
    destruct (Counter_spec (map Mutation df)) as (Hnd & Hsum & Hkeys & Hcount).
    split; [|split; [|split]].
    + rewrite <- (Zsum_perm _ _ (Permutation_map Count Hperm)).
      rewrite freq_table_counts, Hsum, length_map. reflexivity.
    + apply (Permutation_NoDup (Permutation_map label Hperm)).
      rewrite freq_table_labels. exact Hnd.
    + intros row Hin.
      apply (Permutation_in _ (Permutation_map label Hperm)).
      rewrite freq_table_labels. apply Hkeys. apply in_map. exact Hin.
    + intros r Hin.
      apply (Permutation_in _ (Permutation_sym Hperm)) in Hin.
      apply freq_table_In in Hin. destruct Hin as (Hin & _).
      destruct (Hcount _ _ Hin) as (Hpos & Heq).
      split; [exact Hpos|]. rewrite Heq. apply count_occ_Count_of.
Qed.

(** C4. On a table that is not empty, every entry of the returned mapping
    has the percentage 100 * count / total, where the total is the sum of
    the counts over all labels, and the percentages add up to 100.  On the
    empty table the result is the empty mapping. *)
Theorem mutation_frequencies_percentages (df : DataFrame) :
  (df <> [] ->
   (forall r, In r (calculate_mutation_frequencies df) ->
              (Frequency r ==
               100 * inject_Z (Count r) /
               inject_Z (Zsum (map Count (calculate_mutation_frequencies df))))%Q) /\
   (Qsum (map Frequency (calculate_mutation_frequencies df)) == 100)%Q) /\
  (df = [] -> calculate_mutation_frequencies df = []).
Proof.
  split; [|intros ->; reflexivity].
  intros Hne.
  destruct (mutation_counts_partition_rows_aux df) as (Htotal & Hperm & Hsum).
  assert (0 < Z.of_nat (List.length df)) as Hlen
    by (destruct df; [contradiction|simpl List.length; lia]).
  assert (empty df = false) as He by (destruct df; [contradiction|reflexivity]).
  rewrite He in Hperm.
  split.
  - intros r Hin. rewrite Htotal.
    apply (Permutation_in _ (Permutation_sym Hperm)) in Hin.
    apply freq_table_In in Hin. destruct Hin as (_ & ->).
    rewrite Hsum. unfold Qdiv. ring.
  - rewrite <- (Qsum_perm _ _ (Permutation_map Frequency Hperm)).
    unfold freq_table. rewrite map_map. cbn [Frequency].
    rewrite freq_table_percentages, Hsum.
    field. intros H0. apply (Qlt_irrefl 0).
    rewrite <- H0 at 2. rewrite <- (Zlt_Qlt 0). exact Hlen.
Qed.

Lemma mutation_frequencies_percentages_witness :
  (Qsum (map Frequency
             (calculate_mutation_frequencies
                [Sample.snp "A" "G"; Sample.snp "A" "C"; Sample.snp "A" "C"]))
   == 100)%Q.
Proof.
  apply (proj1 (mutation_frequencies_percentages
                  [Sample.snp "A" "G"; Sample.snp "A" "C"; Sample.snp "A" "C"])).
  discriminate.
Defined.

(** ** The quality summary *)

Lemma dropna_DP (df : DataFrame) :
  Zsum (dropna (map DP df)) = depth_total df /\
  Count_of (fun row => DP row <> None) df
           (Z.of_nat (List.length (dropna (map DP df)))).
Proof.
  induction df as [|row df (IHs & IHc)]; cbn [map dropna].
  - split; [reflexivity|constructor].
  - unfold depth_total. cbn [fold_right]. fold (depth_total df).
    destruct (DP row) as [d|] eqn:Hd; cbn [dropna].
    + split; [simpl; rewrite IHs; reflexivity|].
      cbn [List.length]. rewrite Nat2Z.inj_succ. unfold Z.succ.
      constructor; [rewrite Hd; discriminate|exact IHc].
    + split; [exact IHs|].
      apply Count_miss; [rewrite Hd; auto|exact IHc].
Qed.

(** C5. On a table that is not empty, Mean Depth is the mean over the
    records that have a depth: with n such records (n > 0) it is their
    total divided by n, a record without depth adding nothing to the total
    and nothing to n; with no such record it is NaN; and a record without
    depth put in front of the table leaves it unchanged.  On the four
    records with depths 10, 20, missing and 30 it is 20. *)
Theorem mean_depth_over_defined_depths :
  (forall df : DataFrame,
      df <> [] ->
      exists m,
        Py.lookup (ngs_quality_metrics df) "Mean Depth" = Some m /\
        (forall n, Count_of (fun row => DP row <> None) df n ->
                   (n = 0 -> m = NaN) /\
                   (0 < n ->
                    exists x, m = Float x /\
                              (x == inject_Z (depth_total df) / inject_Z n)%Q)) /\
        (forall row, DP row = None ->
                     Py.lookup (ngs_quality_metrics (row :: df)) "Mean Depth" = Some m)) /\
  (exists x,
      Py.lookup (ngs_quality_metrics Sample.depths) "Mean Depth" = Some (Float x) /\
      (x == 20)%Q).
Proof.
  split.
  - intros df Hne.
    destruct df as [|row0 df0]; [contradiction|].
    set (df := row0 :: df0).
    exists (np_mean (dropna (map DP df))).
    split; [reflexivity|]. split.
    + intros n Hn.
      destruct (dropna_DP df) as (Hsum & Hcount).
      rewrite (Count_of_unique _ _ _ _ Hn Hcount).
      unfold np_mean. rewrite <- Hsum.
      destruct (dropna (map DP df)) as [|d ds]; cbn [List.length].
      * split; [reflexivity|simpl; lia].
      * split; [rewrite Nat2Z.inj_succ; lia|].
        intros _. eexists. split; reflexivity.
    + intros row Hrow. unfold ngs_quality_metrics.
      cbn [empty negb map Py.lookup String.eqb Ascii.eqb Bool.eqb].
      rewrite Hrow. reflexivity.
  - exists (60 # 3)%Q. split; reflexivity.
Qed.

Lemma mean_depth_over_defined_depths_witness :
  exists m,
    Py.lookup (ngs_quality_metrics Sample.depths) "Mean Depth" = Some m /\
    Py.lookup (ngs_quality_metrics (Sample.row "G" "A" "snp" None None :: Sample.depths))
              "Mean Depth" = Some m.
Proof.
  destruct (proj1 mean_depth_over_defined_depths Sample.depths)
    as (m & Hm & _ & Hrow); [discriminate|].
  exists m. split; [exact Hm|].
  apply Hrow. reflexivity.
Defined.

(** C6. On a table that is not empty, Q30 Variants is the number of records
    that have a quality score and whose score is at least 30: a record with
    a lower score or with none is not counted. *)
Theorem q30_counts_defined_quality (df : DataFrame) :
  df <> [] ->
  exists n,
    Py.lookup (ngs_quality_metrics df) "Q30 Variants" = Some (Int n) /\
    Count_of (fun row => exists q, QUAL row = Some q /\ (30 <= q)%Q) df n.
Proof.
  intros Hne. destruct df as [|row0 df0]; [contradiction|].
  eexists. split; [reflexivity|].
  apply Count_of_filter. intros row. unfold qual_ge_30.
  destruct (QUAL row) as [q|].
  - rewrite Qle_bool_iff. split.
    + intros H. exists q. auto.
    + intros (q' & Hq & H). injection Hq as ->. exact H.
  - split; [discriminate|]. intros (q & Hq & _). discriminate.
Qed.

Lemma q30_counts_defined_quality_witness :
  exists n,
    Py.lookup (ngs_quality_metrics Sample.depths) "Q30 Variants" = Some (Int n) /\
    Count_of (fun row => exists q, QUAL row = Some q /\ (30 <= q)%Q) Sample.depths n.
Proof.
  apply q30_counts_defined_quality. discriminate.
Defined.

(** Every row that [parse_vcf] builds has a depth: 0 stands for an entry
    without allele depths. *)
Lemma parse_vcf_depth_defined
    (VCF : string -> result vcf_iter) (vcf_path : string) (i : nat) (row : Row) :
  nth_error (fst (parse_vcf VCF vcf_path)) i = Some row ->
  exists vcf variant d,
    VCF vcf_path = Ok vcf /\
    nth_error (entries vcf) i = Some variant /\
    DP row = Some d /\
    (Py.contains (Variant.FORMAT variant) "AD" = false -> d = 0).
Proof.
  intros Hrow.
  destruct (parse_vcf_row_origin _ _ _ _ Hrow) as (vcf & variant & Hopen & Hv & Hrec).
  destruct (record_of_Ok _ _ Hrec) as (_ & _ & _ & Hdp & _).
  exists vcf, variant, 0.
  split; [exact Hopen|]. split; [exact Hv|]. split; [exact Hdp|].
  intros _. reflexivity.
Qed.

(** ** Rounding *)

Lemma round_half_even_near (q : Q) :
  (Qabs (inject_Z (Py.round_half_even q) - q) <= 1 # 2)%Q.
Proof.
  unfold Py.round_half_even.
  pose proof (Qfloor_le q) as Hlo.
  pose proof (Qlt_floor q) as Hhi.
  rewrite inject_Z_plus in Hhi. change (inject_Z 1) with 1%Q in Hhi.
  set (f := Qfloor q) in *.
  apply Qabs_Qle_condition.
  destruct (q - inject_Z f ?= 1 # 2)%Q eqn:Hc.
  - apply Qeq_alt in Hc.
    destruct (Z.even f);
      [|rewrite inject_Z_plus; change (inject_Z 1) with 1%Q]; split; lra.
  - apply Qlt_alt in Hc. split; lra.
  - apply Qgt_alt in Hc.
    rewrite inject_Z_plus. change (inject_Z 1) with 1%Q. split; lra.
Qed.

Lemma round2_rounded (x : Q) : rounded_to_2_places (Py.round2 x) x.
Proof.
  unfold rounded_to_2_places, Py.round2.
  exists (Py.round_half_even (x * 100)). split; [reflexivity|].
  pose proof (round_half_even_near (x * 100)) as H.
  apply Qabs_Qle_condition in H. apply Qabs_Qle_condition.
  set (k := inject_Z (Py.round_half_even (x * 100))) in *.
  unfold Qdiv. change (/ 100)%Q with (1 # 100)%Q.
  split; lra.
Qed.

(** *** The float nearest to a rational *)

Lemma pow2_pos (e : Z) : (0 < 2 ^ e)%Q.
Proof. apply Qpower_0_lt. reflexivity. Qed.

Lemma pow2_opp_mult (e : Z) : (2 ^ (- e) * 2 ^ e == 1)%Q.
Proof.
  rewrite Qpower_opp. field.
  intros H. pose proof (pow2_pos e) as Hp. rewrite H in Hp. discriminate.
Qed.

Lemma float_of_Q_error (q : Q) :
  ~ (q == 0)%Q ->
  (Qabs (Py.float_of_Q q - q)
   <= 2 ^ (Z.max (Py.ilog2 (Qabs q) - 52) (-1074)) * (1 # 2))%Q.
Proof.
  intros Hq. unfold Py.float_of_Q.
  destruct (Qeq_bool q 0) eqn:H0; [apply Qeq_bool_iff in H0; contradiction|].
  cbv zeta. set (e := Z.max (Py.ilog2 (Qabs q) - 52) (-1074)).
  rewrite Qred_correct.
  pose proof (round_half_even_near (q * 2 ^ (- e))) as Hnear.
  set (m := inject_Z (Py.round_half_even (q * 2 ^ (- e)))) in *.
  pose proof (pow2_pos e) as Hp. pose proof (pow2_opp_mult e) as Hinv.
  assert (m * 2 ^ e - q == (m - q * 2 ^ (- e)) * 2 ^ e)%Q as ->.
  { transitivity (m * 2 ^ e - q * (2 ^ (- e) * 2 ^ e))%Q; [rewrite Hinv|]; ring. }
  rewrite Qabs_Qmult, (Qabs_pos (2 ^ e)) by (apply Qlt_le_weak; exact Hp).
  rewrite (Qmult_comm (2 ^ e)).
  apply Qmult_le_compat_r; [exact Hnear|apply Qlt_le_weak; exact Hp].
Qed.

Lemma pow2_of_Z (a : Z) : 0 <= a -> (2 ^ a == inject_Z (2 ^ a))%Q.
Proof. intros Ha. rewrite (Zpower_Qpower 2 a Ha). reflexivity. Qed.

Lemma Qdiv_lt_cross (n d a b : Q) :
  (0 < d -> 0 < b -> n * b < a * d -> n / d < a / b)%Q.
Proof.
  intros Hd Hb H. apply Qlt_shift_div_r; [exact Hd|].
  assert (a / b * d == a * d / b)%Q as ->
    by (field; intros H0; rewrite H0 in Hb; discriminate).
  apply Qlt_shift_div_l; assumption.
Qed.

Lemma Qdiv_le_cross (n d a b : Q) :
  (0 < d -> 0 < b -> a * d <= n * b -> a / b <= n / d)%Q.
Proof.
  intros Hd Hb H. apply Qle_shift_div_l; [exact Hd|].
  assert (a / b * d == a * d / b)%Q as ->
    by (field; intros H0; rewrite H0 in Hb; discriminate).
  apply Qle_shift_div_r; assumption.
Qed.

Lemma ilog2_spec (q : Q) :
  (0 < q)%Q -> (2 ^ Py.ilog2 q <= q /\ q < 2 ^ (Py.ilog2 q + 1))%Q.
Proof.
  intros Hq. unfold Py.ilog2.
  destruct q as [n d]. cbn [Qnum Qden].
  assert (0 < n) as Hn by (unfold Qlt in Hq; simpl in Hq; lia).
  pose proof (Z.log2_spec n Hn) as (Hn1 & Hn2).
  pose proof (Z.log2_spec (Zpos d) ltac:(lia)) as (Hd1 & Hd2).
  pose proof (Z.log2_nonneg n) as Ha. pose proof (Z.log2_nonneg (Zpos d)) as Hb.
  set (a := Z.log2 n) in *. set (b := Z.log2 (Zpos d)) in *.
  assert (forall k, 2 ^ (a - b + k) == 2 ^ k * inject_Z (2 ^ a) / inject_Z (2 ^ b))%Q
    as Hpow.
  { intros k. replace (a - b + k) with (k + a + - b) by lia.
    rewrite !Qpower_plus by discriminate.
    rewrite Qpower_opp, (pow2_of_Z a Ha), (pow2_of_Z b Hb).
    unfold Qdiv. reflexivity. }
  rewrite Z.pow_succ_r in Hn2, Hd2 by assumption.
  rewrite Zle_Qle in Hn1, Hd1. rewrite Zlt_Qlt, inject_Z_mult in Hn2, Hd2.
  assert (0 < inject_Z (2 ^ a))%Q as HA
    by (rewrite <- (Zlt_Qlt 0); apply Z.pow_pos_nonneg; lia).
  assert (0 < inject_Z (2 ^ b))%Q as HB
    by (rewrite <- (Zlt_Qlt 0); apply Z.pow_pos_nonneg; lia).
  assert (0 < inject_Z (Zpos d))%Q as Hd0 by reflexivity.
  rewrite (Qmake_Qdiv n d).
  change (inject_Z 2) with 2%Q in *.
  set (N := inject_Z n) in *. set (D := inject_Z (Zpos d)) in *.
  set (A := inject_Z (2 ^ a)) in *. set (B := inject_Z (2 ^ b)) in *.
  destruct (Qle_bool (2 ^ (a - b)) (N / D)) eqn:Hle.
  - apply Qle_bool_iff in Hle. split; [exact Hle|].
    rewrite (Hpow 1%Z). change (2 ^ 1)%Q with 2%Q.
    apply Qdiv_lt_cross; [exact Hd0|exact HB|]. nra.
  - assert (N / D < 2 ^ (a - b))%Q as Hlt.
    { destruct (Qlt_le_dec (N / D) (2 ^ (a - b))) as [H|H]; [exact H|].
      apply Qle_bool_iff in H. congruence. }
    replace (a - b - 1 + 1) with (a - b) by lia.
    split; [|exact Hlt].
    replace (a - b - 1) with (a - b + -1) by lia.
    rewrite (Hpow (-1)). change (2 ^ (-1))%Q with (1 # 2)%Q.
    apply Qdiv_le_cross; [exact Hd0|exact HB|]. nra.
Qed.

(** The float quotient of two counts is within the relative error 2^-53
    of the exact quotient. *)
Lemma truediv_relative_error_pos (a b : Z) :
  0 < a -> 0 < b -> b < 2 ^ 1022 ->
  (Qabs (Py.truediv a b - inject_Z a / inject_Z b)
   <= inject_Z a / inject_Z b * 2 ^ (-53))%Q.
Proof.
  intros Ha Hb Hsmall. unfold Py.truediv.
  set (q := (inject_Z a / inject_Z b)%Q).
  assert (0 < inject_Z b)%Q as Hb' by (rewrite <- (Zlt_Qlt 0); exact Hb).
  assert (1 <= inject_Z a)%Q as Ha' by (rewrite <- (Zle_Qle 1); lia).
  assert (inject_Z b < 2 ^ 1022)%Q as Hs'.
  { rewrite (pow2_of_Z 1022) by lia. rewrite <- Zlt_Qlt. exact Hsmall. }
  assert (2 ^ (-1022) < q)%Q as Hq.
  { unfold q. apply Qlt_shift_div_l; [exact Hb'|].
    apply Qlt_le_trans with (2 ^ (-1022) * 2 ^ 1022)%Q.
    - apply Qmult_lt_l; [apply pow2_pos|exact Hs'].
    - rewrite (pow2_opp_mult 1022). exact Ha'. }
  assert (0 < q)%Q as Hq0 by (eapply Qlt_trans; [apply pow2_pos|exact Hq]).
  assert (~ q == 0)%Q as Hne by (intros H; rewrite H in Hq0; discriminate).
  pose proof (float_of_Q_error q Hne) as Herr.
  assert (0 < Qabs q)%Q as Habs0 by (rewrite Qabs_pos; [exact Hq0|apply Qlt_le_weak; exact Hq0]).
  destruct (ilog2_spec (Qabs q) Habs0) as (Hlo & Hhi).
  set (L := Py.ilog2 (Qabs q)) in *.
  rewrite (Qabs_pos q) in Hlo, Hhi by (apply Qlt_le_weak; exact Hq0).
  assert (-1022 < L + 1) as HL.
  { apply (Qpower_lt_compat_l_inv 2); [|reflexivity].
    eapply Qlt_trans; [exact Hq|exact Hhi]. }
  rewrite Z.max_l in Herr by lia.
  eapply Qle_trans; [exact Herr|].
  replace (L - 52) with (L + -52) by lia.
  rewrite Qpower_plus by discriminate.
  assert (2 ^ (-52) * (1 # 2) == 2 ^ (-53))%Q as H53 by reflexivity.
  rewrite <- Qmult_assoc, H53.
  apply Qmult_le_compat_r; [exact Hlo|apply Qlt_le_weak, pow2_pos].
Qed.

Lemma truediv_relative_error (a b : Z) :
  0 <= a -> 0 < b -> b < 2 ^ 1022 ->
  (Qabs (Py.truediv a b - inject_Z a / inject_Z b)
   <= inject_Z a / inject_Z b * 2 ^ (-53))%Q.
Proof.
  intros Ha Hb Hsmall.
  destruct (Z.eq_dec a 0) as [->|Hne];
    [|apply truediv_relative_error_pos; [lia|exact Hb|exact Hsmall]].
  assert (inject_Z 0 / inject_Z b == 0)%Q as H0 by (unfold Qdiv; ring).
  unfold Py.truediv, Py.float_of_Q.
  destruct (Qeq_bool (inject_Z 0 / inject_Z b) 0) eqn:He;
    [|apply Qeq_bool_neq in He; contradiction].
  rewrite H0. discriminate.
Qed.

(** The quotients and roundings of a few small counts, as Python prints
    them: 1/40 gives 0.03 and 3/40 gives 0.07, since the float nearest to
    0.025 is above it and the one nearest to 0.075 below; 1/8 is a tie in
    binary too and goes to the even 0.12. *)
Example round2_truediv_samples :
  Py.round2 (Py.truediv 1 40) = Py.float_of_Q (3 # 100) /\
  Py.round2 (Py.truediv 3 40) = Py.float_of_Q (7 # 100) /\
  Py.round2 (Py.truediv 1 200) = Py.float_of_Q (1 # 100) /\
  Py.round2 (Py.truediv 1 8) = Py.float_of_Q (12 # 100) /\
  Py.round2 (Py.truediv 2 3) = Py.float_of_Q (67 # 100) /\
  Py.round2 (Py.truediv 3 1) = 3%Q /\
  Py.float_of_Q (1 # 10) = (3602879701896397 # 36028797018963968)%Q.
Proof. repeat split; vm_compute; reflexivity. Qed.

(** ** The spectrum *)

Lemma split_not_nil (sep : ascii) (s : string) : Py.split sep s <> [].
Proof.
  destruct s as [|c s]; simpl; [discriminate|].
  destruct (Ascii.eqb c sep); [discriminate|].
  destruct (Py.split sep s); discriminate.
Qed.

Lemma split_index0 (row : Row) :
  Py.index "list" (Py.split "," (ALT row)) 0 = Ok (first_alt row).
Proof.
  unfold first_alt, Py.index.
  pose proof (split_not_nil "," (ALT row)) as H.
  destruct (Py.split "," (ALT row)); [contradiction|reflexivity].
Qed.

Lemma pair_in_In (p : string * string) (table : list (string * string)) :
  pair_in p table = true <-> In p table.
Proof.
  unfold pair_in. rewrite existsb_exists. split.
  - intros ([a b] & Hin & H). apply andb_prop in H. simpl in H.
    destruct H as (Ha & Hb).
    apply String.eqb_eq in Ha, Hb. subst. destruct p. exact Hin.
  - intros Hin. exists p. split; [exact Hin|].
    rewrite !String.eqb_refl. reflexivity.
Qed.

(** No pair is in both tables. *)
Lemma tables_disjoint (p : string * string) :
  pair_in p transitions = true -> pair_in p transversions = false.
Proof.
  intros H. apply pair_in_In in H.
  destruct (pair_in p transversions) eqn:H'; [|reflexivity].
  apply pair_in_In in H'. exfalso.
  simpl in H, H'.
  repeat match goal with
         | H : _ \/ _ |- _ => destruct H
         | H : False |- _ => destruct H
         end; subst; discriminate.
Qed.

Lemma spectrum_loop_counts (rows : list Row) :
  forall ti tv,
    spectrum_loop rows (ti, tv) =
    Ok (ti + Z.of_nat (List.length
                         (filter (fun row => pair_in (REF row, first_alt row) transitions)
                                 rows)),
        tv + Z.of_nat (List.length
                         (filter (fun row => pair_in (REF row, first_alt row) transversions)
                                 rows))).
Proof.
  induction rows as [|row rows IH]; intros ti tv; cbn [spectrum_loop filter].
  - cbn [List.length]. rewrite !Z.add_0_r. reflexivity.
  - unfold spectrum_step. rewrite split_index0. cbn [bind].
    destruct (pair_in (REF row, first_alt row) transitions) eqn:Hti.
    + rewrite (tables_disjoint _ Hti). cbn [bind]. rewrite IH.
      cbn [List.length]. rewrite Nat2Z.inj_succ. do 2 f_equal. lia.
    + destruct (pair_in (REF row, first_alt row) transversions) eqn:Htv;
        cbn [bind]; rewrite IH; [|reflexivity].
      cbn [List.length]. rewrite Nat2Z.inj_succ. do 2 f_equal. lia.
Qed.

Lemma filter_filter {A : Type} (f g : A -> bool) (l : list A) :
  filter f (filter g l) = filter (fun a => g a && f a) l.
Proof.
  induction l as [|a l IH]; simpl; [reflexivity|].
  destruct (g a); simpl; [destruct (f a)|]; rewrite ?IH; reflexivity.
Qed.

Lemma no_snp_filter (df : DataFrame) :
  Py.contains (map TYPE df) "snp" = false -> filter is_snp df = [].
Proof.
  unfold Py.contains, is_snp.
  induction df as [|row df IH]; cbn [map existsb filter]; [reflexivity|].
  rewrite (String.eqb_sym "snp" (TYPE row)).
  destruct (String.eqb (TYPE row) "snp"); cbn [orb]; [discriminate|exact IH].
Qed.

Lemma filter_nil_and {A : Type} (f g : A -> bool) (l : list A) :
  filter f l = [] -> filter (fun a => f a && g a) l = [].
Proof.
  induction l as [|a l IH]; simpl; [reflexivity|].
  destruct (f a); simpl; [discriminate|exact IH].
Qed.

(** [mutation_spectrum] never raises, and this is what it returns. *)
Lemma mutation_spectrum_closed_form (df : DataFrame) :
  mutation_spectrum df =
  let ti := Z.of_nat (List.length (filter is_transition_b df)) in
  let tv := Z.of_nat (List.length (filter is_transversion_b df)) in
  Ok {| Transitions := ti;
        Transversions := tv;
        TiTv_Ratio := if 0 <? tv
                      then Ratio (Py.round2 (Py.truediv ti tv))
                      else NA |}.
Proof.
  unfold mutation_spectrum, is_transition_b, is_transversion_b.
  destruct (empty df || negb (Py.contains (map TYPE df) "snp")) eqn:Hguard.
  - assert (filter is_snp df = []) as Hnone.
    { destruct df as [|row df]; [reflexivity|]. cbn [empty orb] in Hguard.
      apply no_snp_filter. destruct (Py.contains _ _); [discriminate|reflexivity]. }
    rewrite !(filter_nil_and is_snp _ df Hnone). reflexivity.
  - rewrite spectrum_loop_counts, !filter_filter. cbn [bind]. reflexivity.
Qed.

Lemma is_transition_reflect (row : Row) :
  is_transition_b row = true <-> is_transition row.
Proof.
  unfold is_transition_b, is_transition, is_snp.
  rewrite andb_true_iff, String.eqb_eq, pair_in_In. reflexivity.
Qed.

Lemma is_transversion_reflect (row : Row) :
  is_transversion_b row = true <-> is_transversion row.
Proof.
  unfold is_transversion_b, is_transversion, is_snp.
  rewrite andb_true_iff, String.eqb_eq, pair_in_In. reflexivity.
Qed.

Lemma filter_none {A : Type} (f : A -> bool) (l : list A) :
  (forall a, In a l -> f a = false) -> filter f l = [].
Proof.
  induction l as [|a l IH]; intros H; simpl; [reflexivity|].
  rewrite (H a (or_introl eq_refl)). apply IH.
  intros b Hb. apply H. right. exact Hb.
Qed.

(** C7. On every table [mutation_spectrum] returns, without raising, the
    number of transition rows and the number of transversion rows among
    the rows of type snp, and a ratio.  The ratio is the marker NA whenever
    the transversion count is 0, whatever the transition count; otherwise
    it is the float transitions / transversions rounded to 2 decimal
    places as [round] does it: the float nearest to a multiple of 1/100
    that is at most half of 1/100 away from the float quotient, itself
    within the relative error 2^-53 of the exact quotient.  On a table
    without a row of type snp both counts are 0 and the ratio is NA. *)
Theorem spectrum_ratio_NA_without_transversion (df : DataFrame) :
  exists s,
    mutation_spectrum df = Ok s /\
    Count_of is_transition df (Transitions s) /\
    Count_of is_transversion df (Transversions s) /\
    (Transversions s = 0 -> TiTv_Ratio s = NA) /\
    (Transversions s <> 0 ->
     exists x,
       TiTv_Ratio s = Ratio x /\
       x = Py.round2 (Py.truediv (Transitions s) (Transversions s)) /\
       rounded_to_2_places
         x (Py.truediv (Transitions s) (Transversions s)) /\
       (Transversions s < 2 ^ 1022 ->
        (Qabs (Py.truediv (Transitions s) (Transversions s)
               - inject_Z (Transitions s) / inject_Z (Transversions s))
         <= inject_Z (Transitions s) / inject_Z (Transversions s) * 2 ^ (-53))%Q)) /\
    ((forall row, In row df -> TYPE row <> "snp") ->
     Transitions s = 0 /\ Transversions s = 0 /\ TiTv_Ratio s = NA).
Proof.
  rewrite mutation_spectrum_closed_form. cbv zeta.
  eexists. split; [reflexivity|]. cbn [Transitions Transversions TiTv_Ratio].
  set (ti := Z.of_nat (List.length (filter is_transition_b df))).
  set (tv := Z.of_nat (List.length (filter is_transversion_b df))).
  assert (0 <= tv) as Htv by (unfold tv; lia).
  split; [apply Count_of_filter, is_transition_reflect|].
  split; [apply Count_of_filter, is_transversion_reflect|].
  split; [|split].
  - intros ->. reflexivity.
  - intros Hne. destruct (Z.ltb_spec 0 tv); [|lia].
    eexists. split; [reflexivity|]. split; [reflexivity|].
    split; [apply round2_rounded|].
    intros Hsmall. apply truediv_relative_error; [unfold ti; lia|lia|exact Hsmall].
  - intros Hnone.
    assert (forall row, In row df -> is_snp row = false) as Hsnp.
    { intros row Hin. unfold is_snp.
      destruct (String.eqb_spec (TYPE row) "snp") as [Heq|]; [|reflexivity].
      exfalso. exact (Hnone row Hin Heq). }
    unfold ti, tv, is_transition_b, is_transversion_b.
    rewrite !filter_none;
      [repeat split | intros row Hin; rewrite (Hsnp row Hin); reflexivity ..].
Qed.

(** Three transitions and one transversion give the ratio 3; only
    transitions give NA. *)
Example spectrum_three_to_one :
  mutation_spectrum
    [Sample.snp "A" "G"; Sample.snp "A" "G"; Sample.snp "C" "T"; Sample.snp "A" "C"]
  = Ok {| Transitions := 3; Transversions := 1; TiTv_Ratio := Ratio 3 |} /\
  mutation_spectrum [Sample.snp "A" "G"; Sample.snp "T" "C"]
  = Ok {| Transitions := 2; Transversions := 0; TiTv_Ratio := NA |}.
Proof. split; reflexivity. Qed.

(** C8. A row of type snp whose pair (reference, first alternate) is in
    neither table changes neither count: with the row or without it,
    [mutation_spectrum] returns, without raising, the same number of
    transitions, the same number of transversions and the same ratio. *)
Theorem spectrum_skips_noncanonical_pair (df1 df2 : DataFrame) (row : Row) :
  TYPE row = "snp" ->
  ~ In (REF row, first_alt row) transitions ->
  ~ In (REF row, first_alt row) transversions ->
  exists s,
    mutation_spectrum (df1 ++ row :: df2)%list = Ok s /\
    mutation_spectrum (df1 ++ df2)%list = Ok s /\
    Count_of is_transition (df1 ++ df2)%list (Transitions s) /\
    Count_of is_transversion (df1 ++ df2)%list (Transversions s).
Proof.
  intros Hsnp Hti Htv.
  rewrite !mutation_spectrum_closed_form. cbv zeta.
  assert (is_transition_b row = false) as Hti'.
  { destruct (is_transition_b row) eqn:H; [|reflexivity].
    apply is_transition_reflect in H. destruct H. contradiction. }
  assert (is_transversion_b row = false) as Htv'.
  { destruct (is_transversion_b row) eqn:H; [|reflexivity].
    apply is_transversion_reflect in H. destruct H. contradiction. }
  rewrite !filter_app. cbn [filter]. rewrite Hti', Htv', <- !filter_app.
  eexists. split; [reflexivity|]. split; [reflexivity|].
  cbn [Transitions Transversions].
  split; apply Count_of_filter;
    [apply is_transition_reflect|apply is_transversion_reflect].
Qed.

Lemma spectrum_skips_noncanonical_pair_witness :
  exists s,
    mutation_spectrum [Sample.snp "A" "G"; Sample.snp "N" "G"; Sample.snp "A" "C"]
      = Ok s /\
    mutation_spectrum [Sample.snp "A" "G"; Sample.snp "A" "C"] = Ok s.
Proof.
  destruct (spectrum_skips_noncanonical_pair
              [Sample.snp "A" "G"] [Sample.snp "A" "C"] (Sample.snp "N" "G"))
    as (s & H1 & H2 & _).
  - reflexivity.
  - intros H. apply pair_in_In in H. vm_compute in H. discriminate.
  - intros H. apply pair_in_In in H. vm_compute in H. discriminate.
  - exists s. split; [exact H1|exact H2].
Defined.

(** * Further properties *)

(** ** The ALT column and the mutation label *)

Lemma split_comma_free (s : string) :
  comma_free s = true -> Py.split "," s = [s].
Proof.
  induction s as [|c s IH]; cbn [comma_free Py.split]; [reflexivity|].
  intros H. apply andb_prop in H. destruct H as (Hc & Hs).
  destruct (Ascii.eqb c ","); [discriminate|].
  rewrite (IH Hs). reflexivity.
Qed.

Lemma split_field_then_comma (s rest : string) :
  comma_free s = true ->
  Py.split "," (s ++ String "," rest) = s :: Py.split "," rest.
Proof.
  induction s as [|c s IH]; cbn [comma_free append Py.split].
  - intros _. rewrite Ascii.eqb_refl. reflexivity.
  - intros H. apply andb_prop in H. destruct H as (Hc & Hs).
    destruct (Ascii.eqb c ","); [discriminate|].
    rewrite (IH Hs). reflexivity.
Qed.

Lemma join_cons (a b : string) (l : list string) :
  Py.join "," (a :: b :: l) = a ++ String "," (Py.join "," (b :: l)).
Proof. reflexivity. Qed.

(** X1. Splitting at the commas undoes the joining with commas: for a list
    of alleles that is not empty and none of which holds a comma,
    [','.join(alleles).split(',')] is the list itself. *)
Theorem split_join_round_trip (alleles : list string) :
  alleles <> [] ->
  forallb comma_free alleles = true ->
  Py.split "," (Py.join "," alleles) = alleles.
Proof.
  intros Hne Hfree.
  induction alleles as [|a l IH]; [contradiction|].
  cbn [forallb] in Hfree. apply andb_prop in Hfree. destruct Hfree as (Ha & Hl).
  destruct l as [|b l].
  - exact (split_comma_free a Ha).
  - rewrite join_cons, (split_field_then_comma _ _ Ha).
    rewrite IH; [reflexivity|discriminate|exact Hl].
Qed.

Lemma split_join_round_trip_witness :
  Py.split "," (Py.join "," ["G"; "T"; "GA"]) = ["G"; "T"; "GA"].
Proof.
  apply split_join_round_trip; [discriminate|reflexivity].
Defined.

(** Without the condition the round trip fails: the empty list comes back
    as one empty field, and an allele with a comma comes back in two. *)
Example split_join_needs_conditions :
  Py.split "," (Py.join "," []) = [""] /\
  Py.split "," (Py.join "," ["G,T"]) = ["G"; "T"].
Proof. split; reflexivity. Qed.

Lemma first_field_of_join (a : string) (l : list string) :
  comma_free a = true ->
  hd EmptyString (Py.split "," (Py.join "," (a :: l))) = a.
Proof.
  intros Ha. destruct l as [|b l].
  - change (Py.join "," [a]) with a. rewrite (split_comma_free a Ha). reflexivity.
  - rewrite join_cons, (split_field_then_comma _ _ Ha). reflexivity.
Qed.

(** X2. The label of the frequency table and the pair of the spectrum agree.
    Every row that [parse_vcf] produces carries the label REF, arrow, first
    alternate allele of its entry; and when that allele holds no comma, the
    allele that [mutation_spectrum] reads back from the ALT column of the
    row is this same allele, whatever the other alleles are. *)
Theorem parse_vcf_label_and_first_alt
    (VCF : string -> result vcf_iter) (vcf_path : string) (i : nat) (row : Row) :
  nth_error (fst (parse_vcf VCF vcf_path)) i = Some row ->
  exists vcf variant alt0,
    VCF vcf_path = Ok vcf /\
    nth_error (entries vcf) i = Some variant /\
    nth_error (Variant.ALT variant) 0 = Some alt0 /\
    Mutation row = Variant.REF variant ++ arrow ++ alt0 /\
    (comma_free alt0 = true ->
     first_alt row = alt0 /\
     Mutation row = REF row ++ arrow ++ first_alt row).
Proof.
  intros Hrow.
  destruct (parse_vcf_row_origin _ _ _ _ Hrow) as (vcf & variant & Hopen & Hv & Hrec).
  destruct (record_of_fields _ _ Hrec) as (vaf & total_depth & alt0 & _ & Halt & ->).
  exists vcf, variant, alt0.
  split; [exact Hopen|]. split; [exact Hv|]. split; [exact Halt|].
  split; [reflexivity|].
  intros Hfree. unfold first_alt. cbn [ALT REF Mutation].
  destruct (Variant.ALT variant) as [|a l]; [discriminate|].
  injection Halt as ->.
  rewrite (first_field_of_join alt0 l Hfree). split; reflexivity.
Qed.

Lemma parse_vcf_label_and_first_alt_witness :
  exists alt0,
    nth_error (Variant.ALT (Sample.plain ["A"; "AT"] (Some 50%Q))) 0 = Some alt0 /\
    first_alt (mkRow "2" 50 "G" "A,AT" "snp" None
                     (Some 0%Q) (Some 0) ("G" ++ arrow ++ "A") (Some 50%Q))
    = alt0.
Proof.
  destruct (parse_vcf_label_and_first_alt
              (Sample.VCF [Sample.plain ["A"; "AT"] (Some 50%Q)] StopIteration)
              "calls.vcf" 0
              (mkRow "2" 50 "G" "A,AT" "snp" None
                     (Some 0%Q) (Some 0) ("G" ++ arrow ++ "A") (Some 50%Q))
              eq_refl)
    as (vcf & variant & alt0 & Hopen & Hv & Halt & _ & Hfirst).
  injection Hopen as <-. injection Hv as <-.
  exists alt0. split; [exact Halt|].
  apply Hfirst. injection Halt as <-. reflexivity.
Defined.

(** ** Depth and frequency of a record *)

(** X3. Every row that [parse_vcf] produces has the depth 0 and the VAF 0,
    never a missing value and never another number: its entry has no AD
    among its formats, for an entry with AD leaves no row, and the
    frequency that INFO reports goes to the AF column only. *)
Theorem parse_vcf_depth_and_vaf_zero
    (VCF : string -> result vcf_iter) (vcf_path : string) (i : nat) (row : Row) :
  nth_error (fst (parse_vcf VCF vcf_path)) i = Some row ->
  exists vcf variant,
    VCF vcf_path = Ok vcf /\
    nth_error (entries vcf) i = Some variant /\
    Py.contains (Variant.FORMAT variant) "AD" = false /\
    DP row = Some 0 /\
    VAF row = Some 0%Q /\
    AF row = Py.lookup (Variant.INFO variant) "AF".
Proof.
  intros Hrow.
  destruct (parse_vcf_row_origin _ _ _ _ Hrow) as (vcf & variant & Hopen & Hv & Hrec).
  destruct (record_of_Ok _ _ Hrec) as (HAD & _ & Hvaf & Hdp & Haf & _).
  exists vcf, variant. repeat split; assumption.
Qed.

Lemma parse_vcf_depth_and_vaf_zero_witness :
  exists row,
    nth_error
      (fst (parse_vcf (Sample.VCF [Sample.with_AF (1 # 4)] StopIteration) "calls.vcf"))
      0 = Some row /\
    DP row = Some 0 /\ VAF row = Some 0%Q /\ AF row = Some (Tuple [(1 # 4)%Q]).
Proof.
  exists (mkRow "1" 200 "C" "T" "snp" (Some (Tuple [(1 # 4)%Q]))
                (Some 0%Q) (Some 0) ("C" ++ arrow ++ "T") None).
  split; [reflexivity|].
  destruct (parse_vcf_depth_and_vaf_zero
              (Sample.VCF [Sample.with_AF (1 # 4)] StopIteration) "calls.vcf" 0
              (mkRow "1" 200 "C" "T" "snp" (Some (Tuple [(1 # 4)%Q]))
                     (Some 0%Q) (Some 0) ("C" ++ arrow ++ "T") None)
              eq_refl)
    as (vcf & variant & Hopen & Hv & _ & Hdp & Hvaf & Haf).
  injection Hopen as <-. injection Hv as <-.
  split; [exact Hdp|]. split; [exact Hvaf|exact Haf].
Defined.

Lemma plain_entries_no_failure (vcf : vcf_iter) :
  reads_to_end vcf = true ->
  Forall (fun variant =>
            Variant.ALT variant <> [] /\
            Py.contains (Variant.FORMAT variant) "AD" = false)
         (entries vcf) ->
  first_failure vcf = None.
Proof.
  induction vcf as [|variant rest IH|e]; cbn [reads_to_end entries first_failure];
    intros Hend Hall; [reflexivity| |discriminate].
  inversion Hall as [|? ? (Halt & HAD) Hrest]; subst.
  destruct (record_of_plain variant HAD Halt) as (row & ->).
  exact (IH Hend Hrest).
Qed.

(** X19. When the reader reads the file to its end and every entry has an
    alternate allele and no AD among its formats, [parse_vcf] reports
    nothing and returns one row per entry, in file order: the i-th row
    has the chromosome, position, reference allele, type and quality of
    the i-th entry, and its alternate alleles joined with commas. *)
Theorem parse_vcf_rows_of_plain_entries
    (VCF : string -> result vcf_iter) (vcf_path : string) (vcf : vcf_iter) :
  VCF vcf_path = Ok vcf ->
  reads_to_end vcf = true ->
  Forall (fun variant =>
            Variant.ALT variant <> [] /\
            Py.contains (Variant.FORMAT variant) "AD" = false)
         (entries vcf) ->
  snd (parse_vcf VCF vcf_path) = [] /\
  List.length (fst (parse_vcf VCF vcf_path)) = List.length (entries vcf) /\
  forall i variant,
    nth_error (entries vcf) i = Some variant ->
    exists row,
      nth_error (fst (parse_vcf VCF vcf_path)) i = Some row /\
      CHROM row = Variant.CHROM variant /\
      POS row = Variant.POS variant /\
      REF row = Variant.REF variant /\
      ALT row = Py.join "," (Variant.ALT variant) /\
      TYPE row = Variant.var_type variant /\
      QUAL row = Variant.QUAL variant.
Proof.
  intros Hopen Hend Hall.
  pose proof (parse_vcf_spec VCF vcf_path) as H.
  unfold failure in H. rewrite Hopen in H.
  rewrite (plain_entries_no_failure vcf Hend Hall) in H.
  destruct H as (vcf' & Hopen' & Hmsg & Hrows).
  assert (vcf' = vcf) as -> by congruence.
  split; [exact Hmsg|]. split; [symmetry; exact (Forall2_length Hrows)|].
  intros i variant Hv.
  destruct (Forall2_nth_error_l _ _ _ Hrows i variant Hv) as (row & Hrow & Hrec).
  exists row. split; [exact Hrow|].
  destruct (record_of_fields _ _ Hrec) as (vaf & depth & alt0 & _ & _ & ->).
  cbn [CHROM POS REF ALT TYPE QUAL]. repeat split.
Qed.

Lemma parse_vcf_rows_of_plain_entries_witness :
  List.length
    (fst (parse_vcf
            (Sample.VCF [Sample.plain ["A"] (Some 50%Q); Sample.with_AF (1 # 8);
                         Sample.plain ["T"; "TA"] None] StopIteration)
            "calls.vcf"))
  = 3%nat.
Proof.
  refine (proj1 (proj2
    (parse_vcf_rows_of_plain_entries
       (Sample.VCF [Sample.plain ["A"] (Some 50%Q); Sample.with_AF (1 # 8);
                    Sample.plain ["T"; "TA"] None] StopIteration)
       "calls.vcf" _ eq_refl eq_refl _))).
  repeat constructor; discriminate.
Defined.

(** ** More on the frequency table *)

Lemma insert_desc_sorted (r : FreqRow) (l : list FreqRow) :
  StronglySorted (fun a b => Count b <= Count a) l ->
  StronglySorted (fun a b => Count b <= Count a) (insert_desc r l).
Proof.
  induction 1 as [|x l Hl IH Hx]; cbn [insert_desc].
  - repeat constructor.
  - destruct (Z.leb_spec (Count x) (Count r)) as [Hle|Hgt].
    + constructor; [constructor; assumption|].
      constructor; [exact Hle|].
      eapply Forall_impl; [|exact Hx]. cbv beta. intros b Hb. lia.
    + constructor; [exact IH|].
      apply (Permutation_Forall (insert_desc_perm r l)).
      constructor; [lia|assumption].
Qed.

(** X4. The frequency table comes back with the largest count first: no
    row has a larger count than a row above it. *)
Theorem mutation_frequencies_sorted (df : DataFrame) :
  StronglySorted (fun above below => Count below <= Count above)
                 (calculate_mutation_frequencies df).
Proof.
  unfold calculate_mutation_frequencies.
  destruct (empty df); [constructor|].
  unfold sort_values_desc.
  induction (freq_table df) as [|r l IH]; cbn [fold_right].
  - constructor.
  - apply insert_desc_sorted. exact IH.
Qed.

Lemma Counter_In (labels : list string) (k : string) (c : Z) :
  In (k, c) (Counter labels) <->
  In k labels /\ c = Z.of_nat (count_occ string_dec labels k).
Proof.
  destruct (Counter_spec labels) as (Hnd & _ & Hkeys & Hcount).
  split.
  - intros Hin. destruct (Hcount k c Hin) as (Hpos & Heq).
    split; [|exact Heq].
    apply (count_occ_In string_dec). lia.
  - intros (Hin & ->).
    apply Hkeys in Hin. apply in_map_iff in Hin.
    destruct Hin as ([k' c'] & Hk & Hin). simpl in Hk. subst k'.
    destruct (Hcount k c' Hin) as (_ & ->). exact Hin.
Qed.

(** X5. In the frequency table every count is at least 1 and at most the
    number of rows of the input, and every percentage is above 0 and at
    most 100. *)
Theorem mutation_frequencies_bounds (df : DataFrame) (r : FreqRow) :
  In r (calculate_mutation_frequencies df) ->
  1 <= Count r <= Z.of_nat (List.length df) /\
  (0 < Frequency r /\ Frequency r <= 100)%Q.
Proof.
  intros Hin.
  destruct (mutation_counts_partition_rows_aux df) as (_ & Hperm & Hsum).
  apply (Permutation_in _ (Permutation_sym Hperm)) in Hin.
  destruct (empty df); [contradiction|].
  apply freq_table_In in Hin. destruct Hin as (Hin & Hfreq).
  apply Counter_In in Hin. destruct Hin as (Hlabel & Hcount).
  assert (1 <= Count r <= Z.of_nat (List.length df)) as Hc.
  { rewrite Hcount. split.
    - apply (count_occ_In string_dec) in Hlabel. lia.
    - pose proof (count_occ_bound string_dec (label r) (map Mutation df)) as Hb.
      rewrite length_map in Hb. lia. }
  split; [exact Hc|].
  rewrite Hfreq, Hsum.
  set (c := Count r) in *. set (n := Z.of_nat (List.length df)) in *.
  assert (0 < inject_Z n)%Q as Hn by (rewrite <- (Zlt_Qlt 0); lia).
  assert (0 < inject_Z c)%Q as Hc0 by (rewrite <- (Zlt_Qlt 0); lia).
  assert (inject_Z c <= inject_Z n)%Q as Hcn by (rewrite <- Zle_Qle; lia).
  split.
  - apply Qmult_lt_0_compat; [|reflexivity].
    apply Qlt_shift_div_l; [exact Hn|]. rewrite Qmult_0_l. exact Hc0.
  - assert (inject_Z c / inject_Z n <= 1)%Q as H1
        by (apply Qle_shift_div_r; [exact Hn|rewrite Qmult_1_l; exact Hcn]).
    lra.
Qed.

Lemma mutation_frequencies_bounds_witness :
  1 <= 2 <= 3 /\ (0 < (2 # 3) * 100 /\ (2 # 3) * 100 <= 100)%Q.
Proof.
  apply (mutation_frequencies_bounds
           [Sample.snp "A" "G"; Sample.snp "A" "C"; Sample.snp "A" "C"]
           {| label := "A" ++ arrow ++ "C"; Count := 2;
              Frequency := (2 # 3) * 100 |}).
  left. reflexivity.
Defined.

Lemma Counter_NoDup (labels : list string) : NoDup (Counter labels).
Proof.
  destruct (Counter_spec labels) as (Hnd & _).
  exact (NoDup_map_inv _ _ Hnd).
Qed.

Lemma Counter_perm (labels labels' : list string) :
  Permutation labels labels' -> Permutation (Counter labels) (Counter labels').
Proof.
  intros Hperm.
  apply NoDup_Permutation; try apply Counter_NoDup.
  intros [k c]. rewrite !Counter_In.
  rewrite (proj1 (Permutation_count_occ string_dec _ _) Hperm k).
  split; intros (Hin & Hc); (split; [|exact Hc]).
  - exact (Permutation_in _ Hperm Hin).
  - exact (Permutation_in _ (Permutation_sym Hperm) Hin).
Qed.

(** X6. The frequency table does not depend on the order of the rows of
    the input: the same rows in another order give the same labels with
    the same counts and percentages (rows of equal count may come in
    another order). *)
Theorem mutation_frequencies_row_order (df df' : DataFrame) :
  Permutation df df' ->
  Permutation (calculate_mutation_frequencies df)
              (calculate_mutation_frequencies df').
Proof.
  intros Hperm.
  pose proof (mutation_counts_partition_rows_aux df) as (_ & H1 & Hs1).
  pose proof (mutation_counts_partition_rows_aux df') as (_ & H2 & Hs2).
  rewrite <- H1, <- H2.
  destruct df as [|row df0].
  - apply Permutation_nil in Hperm. subst. constructor.
  - destruct df' as [|row' df0'].
    + apply Permutation_sym, Permutation_nil in Hperm. discriminate.
    + cbn [empty]. unfold freq_table. cbv zeta.
      rewrite Hs1, Hs2, (Permutation_length Hperm).
      apply Permutation_map, Counter_perm, Permutation_map. exact Hperm.
Qed.

Lemma mutation_frequencies_row_order_witness :
  Permutation
    (calculate_mutation_frequencies [Sample.snp "A" "G"; Sample.snp "A" "C"])
    (calculate_mutation_frequencies [Sample.snp "A" "C"; Sample.snp "A" "G"]).
Proof.
  apply mutation_frequencies_row_order. apply perm_swap.
Defined.

(** ** Counting the values of a column *)

Lemma insert_count_desc_perm (kc : string * Z) (l : list (string * Z)) :
  Permutation (kc :: l) (insert_count_desc kc l).
Proof.
  induction l as [|x l IH]; cbn [insert_count_desc]; [reflexivity|].
  destruct (snd x <=? snd kc); [reflexivity|].
  rewrite perm_swap. constructor. exact IH.
Qed.

Lemma value_counts_perm (column : list string) :
  Permutation (Counter column) (value_counts column).
Proof.
  unfold value_counts.
  induction (Counter column) as [|kc l IH]; cbn [fold_right]; [constructor|].
  rewrite <- insert_count_desc_perm. constructor. exact IH.
Qed.

Lemma lookup_Some_In (d : list (string * Z)) (k : string) (c : Z) :
  Py.lookup d k = Some c -> In (k, c) d.
Proof.
  induction d as [|[k0 c0] d IH]; cbn [Py.lookup]; [discriminate|].
  destruct (String.eqb_spec k0 k) as [->|Hne].
  - intros H. injection H as ->. left. reflexivity.
  - intros H. right. exact (IH H).
Qed.

Lemma lookup_None_keys (d : list (string * Z)) (k : string) :
  Py.lookup d k = None -> ~ In k (map fst d).
Proof.
  induction d as [|[k0 c0] d IH]; cbn [Py.lookup map fst]; [intros _ []|].
  destruct (String.eqb_spec k0 k) as [->|Hne]; [discriminate|].
  intros H [Heq|Hin]; [contradiction|exact (IH H Hin)].
Qed.

Lemma value_counts_NoDup (column : list string) :
  NoDup (map fst (value_counts column)).
Proof.
  apply (Permutation_NoDup (Permutation_map fst (value_counts_perm column))).
  exact (proj1 (Counter_spec column)).
Qed.

(** What [value_counts] holds for a value is the number of its occurrences,
    and it holds nothing for a value that does not occur. *)
Lemma value_counts_lookup (column : list string) (k : string) :
  Py.lookup (value_counts column) k =
  if in_dec string_dec k column
  then Some (Z.of_nat (count_occ string_dec column k))
  else None.
Proof.
  pose proof (value_counts_perm column) as Hperm.
  destruct (in_dec string_dec k column) as [Hin|Hnotin].
  - apply lookup_In; [apply value_counts_NoDup|].
    apply (Permutation_in _ Hperm). apply Counter_In. auto.
  - destruct (Py.lookup (value_counts column) k) as [c|] eqn:Hl; [|reflexivity].
    apply lookup_Some_In in Hl.
    apply (Permutation_in _ (Permutation_sym Hperm)) in Hl.
    apply Counter_In in Hl. destruct Hl. contradiction.
Qed.

Lemma value_counts_get (column : list string) (k : string) :
  get (value_counts column) k 0 = Z.of_nat (count_occ string_dec column k).
Proof.
  unfold get. rewrite value_counts_lookup.
  destruct (in_dec string_dec k column) as [Hin|Hnotin]; [reflexivity|].
  apply (count_occ_not_In string_dec) in Hnotin. rewrite Hnotin. reflexivity.
Qed.

Lemma count_occ_Count_of_column (f : Row -> string) (df : DataFrame) (k : string) :
  Count_of (fun row => f row = k) df
           (Z.of_nat (count_occ string_dec (map f df) k)).
Proof.
  induction df as [|row df IH]; cbn [map count_occ].
  - constructor.
  - destruct (string_dec (f row) k) as [Heq|Hne].
    + rewrite Nat2Z.inj_succ. unfold Z.succ. constructor; assumption.
    + apply Count_miss; assumption.
Qed.

Lemma count_occ_two_values (l : list string) (a b : string) :
  a <> b ->
  (count_occ string_dec l a + count_occ string_dec l b <= List.length l)%nat.
Proof.
  intros Hab. induction l as [|x l IH]; cbn [count_occ List.length]; [lia|].
  destruct (string_dec x a) as [->|Ha]; destruct (string_dec a b) as [Heq|_];
    try contradiction.
  - destruct (string_dec a b); [contradiction|]. lia.
  - destruct (string_dec x b); lia.
Qed.

(** X7. The basic statistics count what they name.  SNPs is the number of
    rows of type snp and INDELs the number of rows of type indel, 0 when
    there is none; together they are at most Total Variants, which is the
    number of rows; and on a table that is not empty Chromosomes is at
    least 1 and at most Total Variants. *)
Theorem basic_statistics_counts (df : DataFrame) :
  Total_Variants (basic_statistics df) = Z.of_nat (List.length df) /\
  Count_of (fun row => TYPE row = "snp") df (SNPs (basic_statistics df)) /\
  Count_of (fun row => TYPE row = "indel") df (INDELs (basic_statistics df)) /\
  SNPs (basic_statistics df) + INDELs (basic_statistics df)
    <= Total_Variants (basic_statistics df) /\
  (df <> [] ->
   1 <= Chromosomes (basic_statistics df) <= Total_Variants (basic_statistics df)).
Proof.
  unfold basic_statistics. cbv zeta.
  cbn [Total_Variants SNPs INDELs Chromosomes].
  rewrite !value_counts_get.
  split; [reflexivity|].
  split; [apply count_occ_Count_of_column|].
  split; [apply count_occ_Count_of_column|].
  split.
  - pose proof (count_occ_two_values (map TYPE df) "snp" "indel") as H.
    rewrite length_map in H. specialize (H ltac:(discriminate)). lia.
  - intros Hne. unfold nunique. split.
    + destruct df as [|row df0]; [contradiction|].
      assert (In (CHROM row) (nodup string_dec (map CHROM (row :: df0)))) as Hin
        by (apply nodup_In; left; reflexivity).
      destruct (nodup string_dec (map CHROM (row :: df0))); [contradiction|].
      cbn [List.length]. lia.
    + apply Nat2Z.inj_le.
      rewrite <- (length_map CHROM df).
      apply NoDup_incl_length; [apply NoDup_nodup|].
      intros x Hx. apply nodup_In in Hx. exact Hx.
Qed.

Lemma basic_statistics_counts_witness :
  1 <= Chromosomes (basic_statistics Sample.depths)
    <= Total_Variants (basic_statistics Sample.depths).
Proof.
  apply (proj2 (proj2 (proj2 (proj2 (basic_statistics_counts Sample.depths))))).
  discriminate.
Defined.

(** ** More on the spectrum *)

Lemma spectrum_counts_le_snp (df : DataFrame) :
  (List.length (filter is_transition_b df) +
   List.length (filter is_transversion_b df)
   <= count_occ string_dec (map TYPE df) "snp")%nat.
Proof.
  induction df as [|row df IH]; cbn [filter map count_occ List.length]; [lia|].
  unfold is_transition_b, is_transversion_b, is_snp.
  destruct (string_dec (TYPE row) "snp") as [Heq|Hne].
  - rewrite Heq, String.eqb_refl. cbn [andb].
    destruct (pair_in (REF row, first_alt row) transitions) eqn:Hti.
    + rewrite (tables_disjoint _ Hti).
      cbn [List.length]. fold is_snp.
      unfold is_transition_b, is_transversion_b, is_snp in IH. lia.
    + destruct (pair_in (REF row, first_alt row) transversions);
        cbn [List.length]; unfold is_transition_b, is_transversion_b, is_snp in IH; lia.
  - destruct (String.eqb_spec (TYPE row) "snp"); [contradiction|].
    cbn [andb]. exact IH.
Qed.

(** X8. The spectrum fits the basic statistics: the counts of transitions
    and of transversions that [mutation_spectrum] returns are not negative,
    and together they are at most the number of SNPs that the page
    shows. *)
Theorem spectrum_within_SNPs (df : DataFrame) :
  exists s,
    mutation_spectrum df = Ok s /\
    0 <= Transitions s /\
    0 <= Transversions s /\
    Transitions s + Transversions s <= SNPs (basic_statistics df).
Proof.
  rewrite mutation_spectrum_closed_form. cbv zeta.
  eexists. split; [reflexivity|]. cbn [Transitions Transversions].
  unfold basic_statistics. cbv zeta. cbn [SNPs].
  rewrite value_counts_get.
  pose proof (spectrum_counts_le_snp df). lia.
Qed.

Lemma filter_length_perm {A : Type} (f : A -> bool) (l l' : list A) :
  Permutation l l' -> List.length (filter f l) = List.length (filter f l').
Proof.
  induction 1 as [|x l l' _ IH|x y l|l l' l'' _ IH1 _ IH2]; cbn [filter].
  - reflexivity.
  - destruct (f x); cbn [List.length]; rewrite IH; reflexivity.
  - destruct (f x), (f y); reflexivity.
  - rewrite IH1. exact IH2.
Qed.

(** X9. The spectrum does not depend on the order of the rows: the same
    rows in another order give the same counts and the same ratio. *)
Theorem spectrum_row_order (df df' : DataFrame) :
  Permutation df df' -> mutation_spectrum df = mutation_spectrum df'.
Proof.
  intros Hperm. rewrite !mutation_spectrum_closed_form. cbv zeta.
  rewrite (filter_length_perm is_transition_b _ _ Hperm).
  rewrite (filter_length_perm is_transversion_b _ _ Hperm).
  reflexivity.
Qed.

Lemma spectrum_row_order_witness :
  mutation_spectrum [Sample.snp "A" "G"; Sample.snp "A" "C"; Sample.snp "C" "T"]
  = mutation_spectrum [Sample.snp "A" "C"; Sample.snp "A" "G"; Sample.snp "C" "T"].
Proof.
  apply spectrum_row_order. apply perm_swap.
Defined.

Lemma filter_and_idem {A : Type} (f g : A -> bool) (l : list A) :
  filter (fun a => f a && g a) (filter f l) = filter (fun a => f a && g a) l.
Proof.
  induction l as [|a l IH]; cbn [filter]; [reflexivity|].
  destruct (f a) eqn:Hf; cbn [filter andb].
  - rewrite Hf. cbn [andb]. destruct (g a); rewrite IH; reflexivity.
  - exact IH.
Qed.

(** X10. Only the rows of type snp matter: the table stripped of its other
    rows has the same spectrum. *)
Theorem spectrum_only_snp_rows (df : DataFrame) :
  mutation_spectrum (filter is_snp df) = mutation_spectrum df.
Proof.
  rewrite !mutation_spectrum_closed_form. cbv zeta.
  unfold is_transition_b, is_transversion_b.
  rewrite !filter_and_idem. reflexivity.
Qed.

(** X11. The counts add up over the parts of a table: the transitions of
    two tables put one after the other are the transitions of the first
    plus those of the second, and so for the transversions. *)
Theorem spectrum_of_concatenation (df1 df2 : DataFrame) :
  exists s1 s2 s,
    mutation_spectrum df1 = Ok s1 /\
    mutation_spectrum df2 = Ok s2 /\
    mutation_spectrum (df1 ++ df2)%list = Ok s /\
    Transitions s = Transitions s1 + Transitions s2 /\
    Transversions s = Transversions s1 + Transversions s2.
Proof.
  rewrite !mutation_spectrum_closed_form. cbv zeta.
  do 3 eexists.
  split; [reflexivity|]. split; [reflexivity|]. split; [reflexivity|].
  cbn [Transitions Transversions].
  rewrite !filter_app, !length_app. lia.
Qed.

(** ** The median *)

Lemma Qinsert_perm (x : Q) (l : list Q) : Permutation (x :: l) (Qinsert x l).
Proof.
  induction l as [|y l IH]; cbn [Qinsert]; [reflexivity|].
  destruct (Qle_bool x y); [reflexivity|].
  rewrite perm_swap. constructor. exact IH.
Qed.

Lemma Qsort_perm (l : list Q) : Permutation l (Qsort l).
Proof.
  unfold Qsort. induction l as [|x l IH]; cbn [fold_right]; [constructor|].
  rewrite <- Qinsert_perm. constructor. exact IH.
Qed.

Lemma Qinsert_sorted (x : Q) (l : list Q) :
  StronglySorted Qle l -> StronglySorted Qle (Qinsert x l).
Proof.
  induction 1 as [|y l Hl IH Hy]; cbn [Qinsert].
  - repeat constructor.
  - destruct (Qle_bool x y) eqn:Hxy.
    + apply Qle_bool_iff in Hxy.
      constructor; [constructor; assumption|].
      constructor; [exact Hxy|].
      eapply Forall_impl; [|exact Hy]. cbv beta.
      intros z Hz. exact (Qle_trans _ _ _ Hxy Hz).
    + constructor; [exact IH|].
      apply (Permutation_Forall (Qinsert_perm x l)).
      constructor; [|exact Hy].
      destruct (Qlt_le_dec y x) as [Hlt|Hle]; [apply Qlt_le_weak; exact Hlt|].
      apply Qle_bool_iff in Hle. congruence.
Qed.

Lemma Qsort_sorted (l : list Q) : StronglySorted Qle (Qsort l).
Proof.
  unfold Qsort. induction l as [|x l IH]; cbn [fold_right].
  - constructor.
  - apply Qinsert_sorted. exact IH.
Qed.

Lemma sorted_nth_le (s : list Q) :
  StronglySorted Qle s ->
  forall i j, (i <= j)%nat -> (j < List.length s)%nat ->
              (nth i s 0 <= nth j s 0)%Q.
Proof.
  induction 1 as [|a s Hs IH Ha]; intros i j Hij Hj; cbn [List.length] in Hj.
  - lia.
  - destruct i as [|i], j as [|j]; cbn [nth].
    + apply Qle_refl.
    + rewrite Forall_forall in Ha. apply Ha. apply nth_In. lia.
    + lia.
    + apply IH; lia.
Qed.

(** In a list whose first k+1 elements are at most m, at least k+1
    elements are at most m. *)
Lemma count_le_from_prefix (m : Q) (s : list Q) :
  forall k,
    (k < List.length s)%nat ->
    (forall i, (i <= k)%nat -> (nth i s 0 <= m)%Q) ->
    (k + 1 <= List.length (filter (fun v => Qle_bool v m) s))%nat.
Proof.
  induction s as [|a s IH]; intros k Hk Hle; cbn [List.length] in Hk; [lia|].
  cbn [filter].
  assert (Qle_bool a m = true) as -> by (apply Qle_bool_iff; exact (Hle 0%nat ltac:(lia))).
  cbn [List.length]. destruct k as [|k]; [lia|].
  specialize (IH k ltac:(lia)).
  assert (forall i, (i <= k)%nat -> (nth i s 0 <= m)%Q) as H
    by (intros i Hi; exact (Hle (S i) ltac:(lia))).
  specialize (IH H). lia.
Qed.

(** In a list whose elements from the k-th on are at least m, at least
    length - k elements are at least m. *)
Lemma count_ge_from_suffix (m : Q) (s : list Q) :
  forall k,
    (forall i, (k <= i)%nat -> (i < List.length s)%nat -> (m <= nth i s 0)%Q) ->
    (List.length s - k <= List.length (filter (fun v => Qle_bool m v) s))%nat.
Proof.
  induction s as [|a s IH]; intros k Hge; cbn [List.length filter]; [lia|].
  destruct k as [|k].
  - assert (Qle_bool m a = true) as ->
        by (apply Qle_bool_iff; apply (Hge 0%nat); cbn [List.length]; lia).
    cbn [List.length].
    assert (List.length s - 0 <= List.length (filter (fun v => Qle_bool m v) s))%nat
      as H.
    { apply IH. intros i _ Hi. apply (Hge (S i)); cbn [List.length]; lia. }
    lia.
  - assert (List.length s - k <= List.length (filter (fun v => Qle_bool m v) s))%nat
      as H.
    { apply IH. intros i Hki Hi. apply (Hge (S i)); cbn [List.length]; lia. }
    destruct (Qle_bool m a); cbn [List.length]; lia.
Qed.

(** The value of [np.median] has at least half of the values at or below
    it and at least half at or above it. *)
Lemma np_median_halves (l : list Q) (m : Q) :
  np_median l = Float m ->
  (List.length l <= 2 * List.length (filter (fun v => Qle_bool v m) l))%nat /\
  (List.length l <= 2 * List.length (filter (fun v => Qle_bool m v) l))%nat.
Proof.
  unfold np_median. intros Hm.
  destruct l as [|v0 l0]; [discriminate|].
  set (l := v0 :: l0) in *. set (n := List.length l) in *.
  assert (0 < n)%nat as Hn by (unfold n, l; cbn [List.length]; lia).
  pose proof (Qsort_perm l) as Hperm.
  pose proof (Qsort_sorted l) as Hsorted.
  assert (List.length (Qsort l) = n) as Hlen
    by (symmetry; exact (Permutation_length Hperm)).
  rewrite (filter_length_perm (fun v => Qle_bool v m) _ _ Hperm).
  rewrite (filter_length_perm (fun v => Qle_bool m v) _ _ Hperm).
  set (s := Qsort l) in *.
  pose proof (Nat.div_mod_eq n 2) as Hdiv.
  pose proof (Nat.mod_upper_bound n 2 ltac:(lia)) as Hmod.
  destruct (Nat.even n) eqn:Heven.
  - apply Nat.even_spec in Heven. destruct Heven as (h & Hh).
    assert (n / 2 = h)%nat as Hq by lia.
    rewrite Hq in Hm. injection Hm as Hm.
    assert (nth (h - 1) s 0 <= nth h s 0)%Q as Hmid
      by (apply sorted_nth_le; [exact Hsorted|lia|lia]).
    assert (nth (h - 1) s 0 <= m /\ m <= nth h s 0)%Q as (Hlo & Hhi)
      by (rewrite <- Hm; unfold Qdiv; change (/ 2)%Q with (1 # 2)%Q; split; lra).
    split.
    + assert (h - 1 + 1 <= List.length (filter (fun v => Qle_bool v m) s))%nat as H.
      { apply count_le_from_prefix; [lia|].
        intros i Hi. apply Qle_trans with (nth (h - 1) s 0%Q); [|exact Hlo].
        apply sorted_nth_le; [exact Hsorted|lia|lia]. }
      lia.
    + assert (List.length s - h <= List.length (filter (fun v => Qle_bool m v) s))%nat
        as H.
      { apply count_ge_from_suffix.
        intros i Hi Hi'. apply Qle_trans with (nth h s 0%Q); [exact Hhi|].
        apply sorted_nth_le; [exact Hsorted|lia|lia]. }
      lia.
  - assert (Nat.odd n = true) as Hodd by (unfold Nat.odd; rewrite Heven; reflexivity).
    apply Nat.odd_spec in Hodd. destruct Hodd as (h & Hh).
    assert (n / 2 = h)%nat as Hq by lia.
    rewrite Hq in Hm. injection Hm as Hm.
    split.
    + assert (h + 1 <= List.length (filter (fun v => Qle_bool v m) s))%nat as H.
      { apply count_le_from_prefix; [lia|].
        intros i Hi. rewrite <- Hm.
        apply sorted_nth_le; [exact Hsorted|lia|lia]. }
      lia.
    + assert (List.length s - h <= List.length (filter (fun v => Qle_bool m v) s))%nat
        as H.
      { apply count_ge_from_suffix.
        intros i Hi Hi'. rewrite <- Hm.
        apply sorted_nth_le; [exact Hsorted|lia|lia]. }
      lia.
Qed.

(** ** More on the quality summary *)

Lemma Count_of_cells {A : Type} (f : Row -> option A) (P : A -> Prop)
    (p : A -> bool) (df : DataFrame) :
  (forall a, p a = true <-> P a) ->
  Count_of (fun row => exists a, f row = Some a /\ P a) df
           (Z.of_nat (List.length (filter p (dropna (map f df))))).
Proof.
  intros Hp. induction df as [|row df IH]; cbn [map dropna filter].
  - constructor.
  - destruct (f row) as [a|] eqn:Hf; cbn [dropna filter].
    + destruct (p a) eqn:Hpa.
      * cbn [List.length]. rewrite Nat2Z.inj_succ. unfold Z.succ.
        constructor; [|exact IH]. exists a. split; [exact Hf|apply Hp; exact Hpa].
      * apply Count_miss; [|exact IH].
        intros (a' & Ha' & HP). rewrite Hf in Ha'. injection Ha' as <-.
        apply Hp in HP. congruence.
    + apply Count_miss; [|exact IH].
      intros (a' & Ha' & _). rewrite Hf in Ha'. discriminate.
Qed.

Lemma Count_of_defined {A : Type} (f : Row -> option A) (df : DataFrame) :
  Count_of (fun row => f row <> None) df
           (Z.of_nat (List.length (dropna (map f df)))).
Proof.
  induction df as [|row df IH]; cbn [map dropna].
  - constructor.
  - destruct (f row) as [a|] eqn:Hf; cbn [dropna].
    + cbn [List.length]. rewrite Nat2Z.inj_succ. unfold Z.succ.
      constructor; [rewrite Hf; discriminate|exact IH].
    + apply Count_miss; [rewrite Hf; auto|exact IH].
Qed.

Lemma median_VAF_lookup (df : DataFrame) (x : Q) :
  df <> [] ->
  Py.lookup (ngs_quality_metrics df) "Median VAF" = Some (Float x) ->
  exists m, np_median (dropna (map VAF df)) = Float m /\ x = (m * 100)%Q.
Proof.
  intros Hne H. destruct df as [|row0 df0]; [contradiction|].
  unfold ngs_quality_metrics in H.
  cbn [empty negb Py.lookup String.eqb Ascii.eqb Bool.eqb] in H.
  remember (np_median (dropna (map VAF (row0 :: df0)))) as med eqn:Hmed.
  injection H as H.
  destruct med as [|m|k]; cbn [metric_times] in H; [discriminate| |].
  - exists m. split; [reflexivity|]. congruence.
  - exfalso. unfold np_median in Hmed.
    destruct (dropna (map VAF (row0 :: df0))); [discriminate|].
    destruct (Nat.even _); discriminate.
Qed.

Lemma Qle_times_100 (v m : Q) : (v * 100 <= m * 100)%Q <-> (v <= m)%Q.
Proof. split; intros H; lra. Qed.

(** X12. Median VAF is a median of the percentages: of the rows that have
    a VAF, at least half have 100 times their VAF at or below it, and at
    least half at or above it. *)
Theorem median_vaf_splits_in_halves (df : DataFrame) (x : Q) (n below above : Z) :
  df <> [] ->
  Py.lookup (ngs_quality_metrics df) "Median VAF" = Some (Float x) ->
  Count_of (fun row => VAF row <> None) df n ->
  Count_of (fun row => exists v, VAF row = Some v /\ (v * 100 <= x)%Q) df below ->
  Count_of (fun row => exists v, VAF row = Some v /\ (x <= v * 100)%Q) df above ->
  n <= 2 * below /\ n <= 2 * above.
Proof.
  intros Hne Hx Hn Hbelow Habove.
  destruct (median_VAF_lookup df x Hne Hx) as (m & Hmed & ->).
  destruct (np_median_halves _ _ Hmed) as (Hle & Hge).
  rewrite (Count_of_unique _ _ _ _ Hn (Count_of_defined VAF df)).
  rewrite (Count_of_unique _ _ _ _ Hbelow
             (Count_of_cells VAF _ (fun v => Qle_bool v m) df
                (fun v => iff_trans (Qle_bool_iff v m)
                                    (iff_sym (Qle_times_100 v m))))).
  rewrite (Count_of_unique _ _ _ _ Habove
             (Count_of_cells VAF _ (fun v => Qle_bool m v) df
                (fun v => iff_trans (Qle_bool_iff m v)
                                    (iff_sym (Qle_times_100 m v))))).
  lia.
Qed.

Lemma median_vaf_splits_in_halves_witness :
  3 <= 2 * 2 /\ 3 <= 2 * 2.
Proof.
  apply (median_vaf_splits_in_halves
           [Sample.with_VAF (Some (3 # 4)%Q); Sample.with_VAF None;
            Sample.with_VAF (Some (1 # 4)%Q); Sample.with_VAF (Some (1 # 2)%Q)]
           ((1 # 2) * 100)%Q 3 2 2).
  - discriminate.
  - reflexivity.
  - apply (Count_of_defined VAF).
  - apply (Count_of_cells VAF _ (fun v => Qle_bool v (1 # 2))).
    intros v. exact (iff_trans (Qle_bool_iff v (1 # 2))
                               (iff_sym (Qle_times_100 v (1 # 2)))).
  - apply (Count_of_cells VAF _ (fun v => Qle_bool (1 # 2) v)).
    intros v. exact (iff_trans (Qle_bool_iff (1 # 2) v)
                               (iff_sym (Qle_times_100 (1 # 2) v))).
Defined.

(** ** From the file to the quality summary *)

Lemma parse_vcf_rows_defined (VCF : string -> result vcf_iter) (vcf_path : string) :
  Forall (fun row => DP row <> None /\ VAF row <> None)
         (fst (parse_vcf VCF vcf_path)).
Proof.
  apply Forall_forall. intros row Hin.
  apply In_nth_error in Hin. destruct Hin as (i & Hi).
  destruct (parse_vcf_row_origin _ _ _ _ Hi) as (vcf & variant & _ & _ & Hrec).
  destruct (record_of_fields _ _ Hrec) as (vaf & d & alt0 & _ & _ & ->).
  split; discriminate.
Qed.

Lemma dropna_all_defined {A : Type} (f : Row -> option A) (df : DataFrame) :
  Forall (fun row => f row <> None) df ->
  List.length (dropna (map f df)) = List.length df.
Proof.
  induction 1 as [|row df Hrow _ IH]; cbn [map dropna List.length]; [reflexivity|].
  destruct (f row); [|contradiction]. cbn [List.length]. rewrite IH. reflexivity.
Qed.

(** X13. On a table that [parse_vcf] has built and that is not empty, Mean
    Depth and Median VAF are numbers, never NaN, and Mean Depth is the
    total depth divided by the number of all the rows: an entry without
    allele depths is in the table with the depth 0 and counts in the
    mean. *)
Theorem parse_vcf_table_mean_depth
    (VCF : string -> result vcf_iter) (vcf_path : string) :
  fst (parse_vcf VCF vcf_path) <> [] ->
  exists x y,
    Py.lookup (ngs_quality_metrics (fst (parse_vcf VCF vcf_path))) "Mean Depth"
      = Some (Float x) /\
    (x == inject_Z (depth_total (fst (parse_vcf VCF vcf_path))) /
          inject_Z (Z.of_nat (List.length (fst (parse_vcf VCF vcf_path)))))%Q /\
    Py.lookup (ngs_quality_metrics (fst (parse_vcf VCF vcf_path))) "Median VAF"
      = Some (Float y).
Proof.
  pose proof (parse_vcf_rows_defined VCF vcf_path) as Hall.
  set (df := fst (parse_vcf VCF vcf_path)) in *.
  intros Hne.
  assert (List.length (dropna (map DP df)) = List.length df) as Hdp.
  { apply dropna_all_defined. eapply Forall_impl; [|exact Hall].
    cbv beta. intros row (H & _). exact H. }
  assert (List.length (dropna (map VAF df)) = List.length df) as Hvaf.
  { apply dropna_all_defined. eapply Forall_impl; [|exact Hall].
    cbv beta. intros row (_ & H). exact H. }
  destruct (dropna_DP df) as (Hsum & _).
  destruct df as [|row0 df0] eqn:Hdf; [contradiction|]. rewrite <- Hdf in *.
  assert (ngs_quality_metrics df =
          [ ("Mean Depth", np_mean (dropna (map DP df)));
            ("Median VAF", metric_times (np_median (dropna (map VAF df))) 100);
            ("Q30 Variants", Int (Z.of_nat (List.length (filter qual_ge_30 df)))) ])
    as -> by (rewrite Hdf; reflexivity).
  cbn [Py.lookup String.eqb Ascii.eqb Bool.eqb].
  unfold np_mean, np_median.
  destruct (dropna (map DP df)) as [|d ds] eqn:Hds;
    [rewrite Hdf in Hdp; discriminate|].
  destruct (dropna (map VAF df)) as [|v vs] eqn:Hvs;
    [rewrite Hdf in Hvaf; discriminate|].
  destruct (Nat.even (List.length (v :: vs))); cbn [metric_times];
    do 2 eexists; (split; [reflexivity|]); (split; [|reflexivity]);
    rewrite Hsum, Hdp; reflexivity.
Qed.

Lemma parse_vcf_table_mean_depth_witness :
  exists x,
    Py.lookup
      (ngs_quality_metrics
         (fst (parse_vcf (Sample.VCF [Sample.with_AF (1 # 8);
                                      Sample.plain ["A"] (Some 50%Q)]
                                     StopIteration) "calls.vcf")))
      "Mean Depth" = Some (Float x) /\
    (x == 0)%Q.
Proof.
  destruct (parse_vcf_table_mean_depth
              (Sample.VCF [Sample.with_AF (1 # 8); Sample.plain ["A"] (Some 50%Q)]
                          StopIteration)
              "calls.vcf")
    as (x & y & Hx & Hmean & _); [discriminate|].
  exists x. split; [exact Hx|]. rewrite Hmean. reflexivity.
Defined.

Lemma record_of_QUAL (variant : Variant.t) (row : Row) :
  record_of variant = Ok row -> QUAL row = Variant.QUAL variant.
Proof.
  intros H. destruct (record_of_fields _ _ H) as (vaf & d & alt0 & _ & _ & ->).
  reflexivity.
Qed.

(** X14. On a table that [parse_vcf] has built and that is not empty, Q30
    Variants is the number of entries of the file whose quality is present
    and at least 30: the quality goes from the file to the count
    unchanged, an absent one staying absent. *)
Theorem parse_vcf_table_q30
    (VCF : string -> result vcf_iter) (vcf_path : string) (vcf : vcf_iter) :
  VCF vcf_path = Ok vcf ->
  fst (parse_vcf VCF vcf_path) <> [] ->
  exists n,
    Py.lookup (ngs_quality_metrics (fst (parse_vcf VCF vcf_path))) "Q30 Variants"
      = Some (Int n) /\
    Count_of (fun variant => exists q, Variant.QUAL variant = Some q /\ (30 <= q)%Q)
             (entries vcf) n.
Proof.
  intros Hopen Hne.
  pose proof (parse_vcf_spec VCF vcf_path) as H.
  destruct (failure VCF vcf_path) as [e|].
  - rewrite H in Hne. contradiction.
  - destruct H as (vcf' & Hopen' & _ & Hall).
    assert (vcf' = vcf) as -> by congruence.
    set (df := fst (parse_vcf VCF vcf_path)) in *.
    destruct df as [|row0 df0] eqn:Hdf; [contradiction|]. rewrite <- Hdf in *.
    exists (Z.of_nat (List.length (filter qual_ge_30 df))).
    split; [rewrite Hdf; reflexivity|].
    assert (List.length (filter qual_ge_30 df) =
            List.length
              (filter (fun variant => match Variant.QUAL variant with
                                      | Some q => Qle_bool 30 q
                                      | None => false
                                      end) (entries vcf))) as ->.
    { clear - Hall. induction Hall as [|variant row vs rows Hrec _ IH];
        cbn [filter]; [reflexivity|].
      unfold qual_ge_30 at 1. rewrite (record_of_QUAL _ _ Hrec).
      destruct (Variant.QUAL variant) as [q|]; [destruct (Qle_bool 30 q)|];
        cbn [List.length]; rewrite ?IH; reflexivity. }
    apply Count_of_filter. intros variant.
    destruct (Variant.QUAL variant) as [q|].
    + rewrite Qle_bool_iff. split.
      * intros Hq. exists q. auto.
      * intros (q' & Hq' & Hq). injection Hq' as ->. exact Hq.
    + split; [discriminate|]. intros (q & Hq & _). discriminate.
Qed.

Lemma parse_vcf_table_q30_witness :
  exists n,
    Py.lookup
      (ngs_quality_metrics
         (fst (parse_vcf (Sample.VCF [Sample.plain ["A"] (Some 50%Q);
                                      Sample.with_AF (1 # 8);
                                      Sample.plain ["T"] (Some 20%Q)]
                                     StopIteration) "calls.vcf")))
      "Q30 Variants" = Some (Int n) /\
    Count_of (fun variant => exists q, Variant.QUAL variant = Some q /\ (30 <= q)%Q)
             [Sample.plain ["A"] (Some 50%Q); Sample.with_AF (1 # 8);
              Sample.plain ["T"] (Some 20%Q)] n.
Proof.
  apply (parse_vcf_table_q30
           (Sample.VCF [Sample.plain ["A"] (Some 50%Q); Sample.with_AF (1 # 8);
                        Sample.plain ["T"] (Some 20%Q)] StopIteration)
           "calls.vcf" _ eq_refl).
  discriminate.
Defined.

(** ** The type distribution *)

Lemma sum_values_cons (kc : string * Z) (d : list (string * Z)) :
  sum_values (kc :: d) = snd kc + sum_values d.
Proof. reflexivity. Qed.

Lemma sum_values_perm (d d' : list (string * Z)) :
  Permutation d d' -> sum_values d = sum_values d'.
Proof.
  induction 1; rewrite ?sum_values_cons; lia.
Qed.

Lemma value_counts_total (column : list string) :
  sum_values (value_counts column) = Z.of_nat (List.length column).
Proof.
  rewrite <- (sum_values_perm _ _ (value_counts_perm column)).
  exact (proj1 (proj2 (Counter_spec column))).
Qed.

Lemma value_counts_positive (column : list string) :
  Forall (fun kc => 1 <= snd kc) (value_counts column).
Proof.
  apply Forall_forall. intros [k c] Hin.
  apply (Permutation_in _ (Permutation_sym (value_counts_perm column))) in Hin.
  destruct (Counter_spec column) as (_ & _ & _ & Hcount).
  exact (proj1 (Hcount k c Hin)).
Qed.

Lemma sum_values_app (d d' : list (string * Z)) :
  sum_values (d ++ d') = sum_values d + sum_values d'.
Proof.
  induction d as [|kc d IH]; [reflexivity|].
  rewrite <- app_comm_cons, !sum_values_cons, IH. lia.
Qed.

Lemma sum_values_filter_split (p : string * Z -> bool) (d : list (string * Z)) :
  sum_values (filter p d) + sum_values (filter (fun kc => negb (p kc)) d)
  = sum_values d.
Proof.
  induction d as [|kc d IH]; cbn [filter]; [reflexivity|].
  destruct (p kc); cbn [negb]; rewrite !sum_values_cons; lia.
Qed.

Lemma sum_values_positive (d : list (string * Z)) (kc : string * Z) :
  Forall (fun kc => 1 <= snd kc) d -> In kc d -> 1 <= sum_values d.
Proof.
  induction 1 as [|x d Hx Hd IH]; intros Hin; [contradiction|].
  rewrite sum_values_cons.
  assert (0 <= sum_values d) as H0.
  { clear - Hd. induction Hd as [|y d Hy _ IH]; [reflexivity|].
    rewrite sum_values_cons. lia. }
  lia.
Qed.

Lemma Z_Q_le20 (c total : Z) :
  total <= 20 * c <-> (inject_Z total <= 20 * inject_Z c)%Q.
Proof.
  rewrite Zle_Qle, inject_Z_mult. reflexivity.
Qed.

Lemma share_ge_5 (c total : Z) :
  0 < total ->
  (5 <= inject_Z c / inject_Z total * 100)%Q <-> total <= 20 * c.
Proof.
  intros Hpos. rewrite Z_Q_le20.
  assert (0 < inject_Z total)%Q as HT by (rewrite <- (Zlt_Qlt 0); exact Hpos).
  assert (inject_Z c / inject_Z total * inject_Z total == inject_Z c)%Q as Hq.
  { field. intros H. rewrite H in HT. discriminate. }
  set (q := (inject_Z c / inject_Z total)%Q) in *.
  set (T := inject_Z total) in *. set (C := inject_Z c) in *.
  split; intros H.
  - rewrite <- Hq. nra.
  - rewrite <- Hq in H. nra.
Qed.

Lemma bool_eq_iff (a b : bool) : (a = true <-> b = true) -> a = b.
Proof.
  destruct a, b; intros (H1 & H2); try reflexivity.
  - symmetry. apply H1. reflexivity.
  - apply H2. reflexivity.
Qed.

Lemma share_below_5_bool (c total : Z) :
  0 < total ->
  Qlt_bool (inject_Z c / inject_Z total * 100) 5 = (20 * c <? total).
Proof.
  intros Hpos. unfold Qlt_bool. rewrite Z.ltb_antisym. f_equal.
  apply bool_eq_iff. rewrite Qle_bool_iff, Z.leb_le. apply share_ge_5. exact Hpos.
Qed.

Lemma at_threshold_bool (c total : Z) :
  Qle_bool (inject_Z total * (5 # 100)) (inject_Z c) = (total <=? 20 * c).
Proof.
  apply bool_eq_iff. rewrite Qle_bool_iff, Z.leb_le, Z_Q_le20.
  split; intros H; lra.
Qed.

Lemma below_threshold_bool (c total : Z) :
  Qlt_bool (inject_Z c) (inject_Z total * (5 # 100)) = (20 * c <? total).
Proof.
  unfold Qlt_bool. rewrite Z.ltb_antisym, at_threshold_bool. reflexivity.
Qed.

Lemma existsb_ext_in {A : Type} (f g : A -> bool) (l : list A) :
  (forall a, In a l -> f a = g a) -> existsb f l = existsb g l.
Proof.
  induction l as [|a l IH]; intros H; cbn [existsb]; [reflexivity|].
  rewrite (H a (or_introl eq_refl)), IH; [reflexivity|].
  intros b Hb. apply H. right. exact Hb.
Qed.

(** The grouping written on the integers: a type is small when 20 times
    its count is below the number of rows. *)
Lemma type_distribution_on_integers (df : DataFrame) :
  let counts := value_counts (map TYPE df) in
  let total := Z.of_nat (List.length df) in
  type_distribution df =
  if existsb (fun kc => 20 * snd kc <? total) counts
  then
    if 0 <? sum_values (filter (fun kc => 20 * snd kc <? total) counts)
    then (filter (fun kc => total <=? 20 * snd kc) counts ++
          [("Other", sum_values (filter (fun kc => 20 * snd kc <? total) counts))])%list
    else counts
  else counts.
Proof.
  cbv zeta. unfold type_distribution. cbv zeta.
  rewrite value_counts_total, length_map.
  set (counts := value_counts (map TYPE df)).
  set (total := Z.of_nat (List.length df)).
  rewrite (filter_ext _ _ (fun kc => at_threshold_bool (snd kc) total)).
  rewrite (filter_ext _ _ (fun kc => below_threshold_bool (snd kc) total)).
  destruct df as [|row0 df0].
  - reflexivity.
  - assert (0 < total) as Hpos by (unfold total; cbn [List.length]; lia).
    rewrite (existsb_ext_in _ (fun kc => 20 * snd kc <? total));
      [reflexivity|].
    intros kc _. apply share_below_5_bool. exact Hpos.
Qed.

(** X15. The grouping loses no row: the counts behind the pie chart,
    with or without a slice Other, add up to the number of rows of the
    table. *)
Theorem type_distribution_total (df : DataFrame) :
  sum_values (type_distribution df) = Z.of_nat (List.length df).
Proof.
  rewrite type_distribution_on_integers. cbv zeta.
  pose proof (value_counts_total (map TYPE df)) as Htotal.
  rewrite length_map in Htotal.
  set (counts := value_counts (map TYPE df)) in *.
  set (total := Z.of_nat (List.length df)) in *.
  destruct (existsb _ counts); [|exact Htotal].
  destruct (0 <? _); [|exact Htotal].
  rewrite sum_values_app, sum_values_cons. cbn [snd]. change (sum_values []) with 0.
  pose proof (sum_values_filter_split (fun kc => total <=? 20 * snd kc) counts) as H.
  cbv beta in H.
  rewrite (filter_ext (fun kc => negb (total <=? 20 * snd kc))
                      (fun kc => 20 * snd kc <? total)) in H
    by (intros kc; symmetry; apply Z.ltb_antisym).
  lia.
Qed.

(** X16. When every type has at least 5% of the rows (20 times its count
    is at least the number of rows) the counts behind the pie chart are
    those of [value_counts], unchanged.  When some type has less, they are
    the types with at least 5%, in their order, followed by one slice
    Other that holds the rows of all the types with less; this slice is
    never empty. *)
Theorem type_distribution_groups_small_types (df : DataFrame) :
  let counts := value_counts (map TYPE df) in
  let total := Z.of_nat (List.length df) in
  (Forall (fun kc => total <= 20 * snd kc) counts ->
   type_distribution df = counts) /\
  (Exists (fun kc => 20 * snd kc < total) counts ->
   exists other,
     1 <= other /\
     other = sum_values (filter (fun kc => 20 * snd kc <? total) counts) /\
     type_distribution df =
     (filter (fun kc => total <=? 20 * snd kc) counts ++ [("Other", other)])%list).
Proof.
  cbv zeta. rewrite type_distribution_on_integers. cbv zeta.
  set (counts := value_counts (map TYPE df)).
  set (total := Z.of_nat (List.length df)).
  split.
  - intros Hall.
    destruct (existsb (fun kc => 20 * snd kc <? total) counts) eqn:Hex;
      [|reflexivity].
    apply existsb_exists in Hex. destruct Hex as (kc & Hin & Hlt).
    rewrite Forall_forall in Hall. specialize (Hall kc Hin).
    apply Z.ltb_lt in Hlt. lia.
  - intros Hsome. apply Exists_exists in Hsome. destruct Hsome as (kc & Hin & Hlt).
    assert (existsb (fun kc => 20 * snd kc <? total) counts = true) as ->.
    { apply existsb_exists. exists kc. split; [exact Hin|]. apply Z.ltb_lt. exact Hlt. }
    assert (1 <= sum_values (filter (fun kc => 20 * snd kc <? total) counts)) as Hpos.
    { apply (sum_values_positive _ kc).
      - apply incl_Forall with (l1 := counts);
          [intros x Hx; apply filter_In in Hx; exact (proj1 Hx)|].
        apply value_counts_positive.
      - apply filter_In. split; [exact Hin|]. apply Z.ltb_lt. exact Hlt. }
    destruct (Z.ltb_spec 0 (sum_values (filter (fun kc => 20 * snd kc <? total) counts)));
      [|lia].
    eexists. split; [exact Hpos|]. split; reflexivity.
Qed.

Lemma type_distribution_groups_small_types_witness :
  exists other,
    1 <= other /\
    type_distribution Sample.mostly_snp = [("snp", 20); ("Other", other)].
Proof.
  destruct (proj2 (type_distribution_groups_small_types Sample.mostly_snp))
    as (other & Hpos & Hother & Hdist).
  - apply Exists_exists. exists ("indel", 1). split.
    + right. left. reflexivity.
    + reflexivity.
  - exists other. split; [exact Hpos|]. rewrite Hdist, Hother. reflexivity.
Defined.

(** ** The analyzer page *)

Lemma parse_vcf_empty_or_clean (VCF : string -> result vcf_iter) (vcf_path : string) :
  fst (parse_vcf VCF vcf_path) <> [] -> snd (parse_vcf VCF vcf_path) = [].
Proof.
  intros Hne. pose proof (parse_vcf_spec VCF vcf_path) as H.
  destruct (failure VCF vcf_path) as [e|].
  - rewrite H in Hne. contradiction.
  - destruct H as (_ & _ & Hmsg & _). exact Hmsg.
Qed.

Lemma analyzer_page_on_rows (VCF : string -> result vcf_iter) (tmp_path : string) :
  fst (parse_vcf VCF tmp_path) <> [] ->
  exists s,
    mutation_spectrum (fst (parse_vcf VCF tmp_path)) = Ok s /\
    analyzer_page VCF tmp_path =
    ([], Shown {| table := fst (parse_vcf VCF tmp_path);
                  statistics := basic_statistics (fst (parse_vcf VCF tmp_path));
                  type_counts := type_distribution (fst (parse_vcf VCF tmp_path));
                  freq_df := calculate_mutation_frequencies (fst (parse_vcf VCF tmp_path));
                  metrics := ngs_quality_metrics (fst (parse_vcf VCF tmp_path));
                  spectrum := s |}).
Proof.
  intros Hne. pose proof (parse_vcf_empty_or_clean _ _ Hne) as Hmsg.
  unfold analyzer_page.
  destruct (parse_vcf VCF tmp_path) as [df errors]. cbn [fst snd] in *. subst errors.
  destruct df as [|row0 df0]; [contradiction|]. cbn [empty].
  rewrite mutation_spectrum_closed_form. cbv zeta.
  eexists. split; reflexivity.
Qed.

(** X17. A run of the page ends in one of three ways, and no exception
    leaves it.  After a failure of the parsing it stops with two messages,
    the parsing error and then the message that no variant was detected.
    On a file that is read without failure and has no entry it stops with
    that one message.  On a file that is read without failure and has an
    entry it shows the analysis, with no message. *)
Theorem analyzer_page_outcomes (VCF : string -> result vcf_iter) (tmp_path : string) :
  match failure VCF tmp_path with
  | Some e =>
      analyzer_page VCF tmp_path =
      (["VCF parsing error: " ++ e; "No variants detected!"], Stopped)
  | None =>
      exists vcf,
        VCF tmp_path = Ok vcf /\
        match entries vcf with
        | [] => analyzer_page VCF tmp_path = (["No variants detected!"], Stopped)
        | _ :: _ => exists analysis, analyzer_page VCF tmp_path = ([], Shown analysis)
        end
  end.
Proof.
  pose proof (parse_vcf_spec VCF tmp_path) as H.
  destruct (failure VCF tmp_path) as [e|].
  - unfold analyzer_page. rewrite H. reflexivity.
  - destruct H as (vcf & Hopen & Hmsg & Hall).
    exists vcf. split; [exact Hopen|].
    destruct (entries vcf) as [|variant vs] eqn:He.
    + inversion Hall as [Hdf|]. unfold analyzer_page.
      destruct (parse_vcf VCF tmp_path) as [df errors]. cbn [fst snd] in *.
      subst. reflexivity.
    + assert (fst (parse_vcf VCF tmp_path) <> []) as Hne
        by (inversion Hall; discriminate).
      destruct (analyzer_page_on_rows _ _ Hne) as (s & _ & Hpage).
      eexists. exact Hpage.
Qed.

(** X18. When the page shows an analysis, it has reported no error, the
    table it analysed is the one [parse_vcf] returned and has at least one
    row, Total Variants is the number of its rows, the frequency table has
    at least one row, and the quality summary holds its three values, so
    that none of the defaults of [metrics.get] is shown. *)
Theorem analyzer_page_shown
    (VCF : string -> result vcf_iter) (tmp_path : string)
    (errors : list string) (analysis : Analysis) :
  analyzer_page VCF tmp_path = (errors, Shown analysis) ->
  errors = [] /\
  table analysis = fst (parse_vcf VCF tmp_path) /\
  table analysis <> [] /\
  Total_Variants (statistics analysis) = Z.of_nat (List.length (table analysis)) /\
  freq_df analysis <> [] /\
  (forall k default,
      In k ["Mean Depth"; "Median VAF"; "Q30 Variants"] ->
      Py.lookup (metrics analysis) k = Some (get (metrics analysis) k default)).
Proof.
  intros Hpage.
  assert (fst (parse_vcf VCF tmp_path) <> []) as Hne.
  { intros Hempty. unfold analyzer_page in Hpage.
    destruct (parse_vcf VCF tmp_path) as [df errs]. cbn [fst] in Hempty. subst df.
    cbn [empty] in Hpage. discriminate. }
  destruct (analyzer_page_on_rows _ _ Hne) as (s & _ & Hpage').
  rewrite Hpage' in Hpage. injection Hpage as <- <-.
  cbn [table statistics freq_df metrics].
  set (df := fst (parse_vcf VCF tmp_path)) in *.
  split; [reflexivity|]. split; [reflexivity|]. split; [exact Hne|].
  split; [reflexivity|]. split.
  - destruct (mutation_counts_partition_rows_aux df) as (Hsum & _).
    intros Hnil. rewrite Hnil in Hsum.
    destruct df; [contradiction|]. cbn [List.length map Zsum fold_right] in Hsum. lia.
  - intros k default Hk.
    destruct df as [|row0 df0]; [contradiction|].
    unfold get, ngs_quality_metrics. cbn [empty negb].
    cbn [In] in Hk.
    destruct Hk as [<-|[<-|[<-|[]]]]; reflexivity.
Qed.

Lemma analyzer_page_shown_witness :
  Py.lookup (ngs_quality_metrics
               (fst (parse_vcf (Sample.VCF [Sample.plain ["A"] (Some 50%Q)]
                                           StopIteration) "upload.vcf")))
            "Mean Depth"
  = Some (get (ngs_quality_metrics
                 (fst (parse_vcf (Sample.VCF [Sample.plain ["A"] (Some 50%Q)]
                                             StopIteration) "upload.vcf")))
              "Mean Depth" (Int 0)).
Proof.
  pose (df := fst (parse_vcf (Sample.VCF [Sample.plain ["A"] (Some 50%Q)]
                                         StopIteration) "upload.vcf")).
  destruct (analyzer_page_shown
              (Sample.VCF [Sample.plain ["A"] (Some 50%Q)] StopIteration)
              "upload.vcf" []
              (mkAnalysis df (basic_statistics df) (type_distribution df)
                          (calculate_mutation_frequencies df)
                          (ngs_quality_metrics df) (mkSpectrum 1 0 NA))
              eq_refl)
    as (_ & _ & _ & _ & _ & Hget).
  apply (Hget "Mean Depth" (Int 0)). left. reflexivity.
Defined.
